(** * ooopsi: fatal-fault handlers (src/handlers.cpp)

    A shallow embedding of the handlers of [handlers.cpp]: the POSIX signal
    handler, the Windows structured-exception filter, the [std::terminate]
    hook and the registration object [HandlerSetup], together with the
    properties of the classification and of the installation life cycle.

    C strings are modelled as [string] (the bytes before the terminating
    NUL), machine integers as [Z] with their conversions written out, and the
    process-wide state touched by [HandlerSetup] as a record threaded through
    a small state-and-termination monad. *)

From Stdlib Require Import ZArith String Ascii Lia.
From stdpp Require Import base option list gmap strings.

Local Open Scope Z_scope.

(* stdpp blocks the unfolding of string concatenation by [simpl]; the proofs
   below compute with it. *)
#[local] Arguments String.append !_ _ / : simpl nomatch.

(** ** C strings and [printf]-style formatting *)

Module CStr.

(** The first [n] characters of [s] (all of [s] when it is shorter). *)
Fixpoint take (n : nat) (s : string) : string :=
  match n, s with
  | S n', String c s' => String c (take n' s')
  | _, _ => EmptyString
  end.

(** [snprintf(buf, size, ...)]: the buffer receives at most [size - 1]
    characters of the formatted text, followed by the terminating NUL. *)
Definition snprintf (size : nat) (formatted : string) : string :=
  take (size - 1) formatted.

(** [strncpy(dst, src, size)] read back as a C string: for a source shorter
    than [size], as the handlers copy, the destination is NUL padded and
    holds [src]. *)
Definition strncpy (size : nat) (src : string) : string :=
  take size src.

(** [p] is an initial segment of [s]. *)
Fixpoint prefixb (p s : string) : bool :=
  match p, s with
  | EmptyString, _ => true
  | String a p', String b s' => Ascii.eqb a b && prefixb p' s'
  | String _ _, EmptyString => false
  end.

(** [sub] occurs somewhere in [s]. *)
Fixpoint occursb (sub s : string) : bool :=
  prefixb sub s ||
  match s with
  | EmptyString => false
  | String _ s' => occursb sub s'
  end.

(** The one-character string holding a double quote. *)
Definition dquote : string := String (ascii_of_nat 34) EmptyString.

(** The one-character string holding a line feed. *)
Definition newline : string := String (ascii_of_nat 10) EmptyString.

(** The character of a digit [0 <= d < 16], lower-case letters above 9. *)
Definition digit_char (d : Z) : ascii :=
  if d <? 10 then ascii_of_nat (48 + Z.to_nat d)
  else ascii_of_nat (87 + Z.to_nat d).

(** Positional rendering of [n >= 0] in [base], most significant digit
    first, writing at most [width] digits ([width] is the number of digits
    the widest value of the C type needs). *)
Fixpoint utoa (base : Z) (width : nat) (n : Z) (acc : string) : string :=
  match width with
  | O => acc
  | S w =>
      let acc' := String (digit_char (n mod base)) acc in
      if n <? base then acc' else utoa base w (n / base) acc'
  end.

(** [%d] applied to an [int]. *)
Definition fmt_d (i : Z) : string :=
  if i <? 0 then String "-" (utoa 10 10 (- i) EmptyString)
  else utoa 10 10 i EmptyString.

(** [%lu] where [unsigned long] has 32 bits (Windows, LLP64): the low 32
    bits of the argument are printed. *)
Definition fmt_lu32 (n : Z) : string :=
  utoa 10 10 (n mod 2 ^ 32) EmptyString.

(** Hexadecimal rendering of a 64-bit address. *)
Definition fmt_x (n : Z) : string :=
  utoa 16 16 (n mod 2 ^ 64) EmptyString.

(** Reading back: the value of a digit character, of a digit string in
[base], and of an optionally signed decimal string. *)
Definition digit_value (c : ascii) : Z :=
  let n := Z.of_nat (nat_of_ascii c) in
  if n <? 58 then n - 48 else n - 87.

Fixpoint atou (base : Z) (s : string) (acc : Z) : Z :=
  match s with
  | EmptyString => acc
  | String c s' => atou base s' (acc * base + digit_value c)
  end.

Definition atoi (s : string) : Z :=
  match s with
  | String c s' => if Ascii.eqb c "-" then - atou 10 s' 0 else atou 10 s 0
  | EmptyString => 0
  end.

(** Every character of [s] satisfies [P]. *)
Fixpoint all_chars (P : ascii → bool) (s : string) : bool :=
  match s with
  | EmptyString => true
  | String c s' => P c && all_chars P s'
  end.

(** A detail text that can be wrapped as it is: it does not begin with a
space and holds no parenthesis. *)
Definition bare (d : string) : bool :=
  negb (prefixb " " d)
  && all_chars (λ c, negb (Ascii.eqb c "(") && negb (Ascii.eqb c ")")) d.

End CStr.

(** ** Integer conversions *)

(** [(uintptr_t) v] on a 64-bit target. *)
Definition to_uintptr (v : Z) : Z := v mod 2 ^ 64.

(** [(int) v]: the low 32 bits read as a signed number. *)
Definition to_int (v : Z) : Z := (v + 2 ^ 31) mod 2 ^ 32 - 2 ^ 31.

(** ** Platform constants

    Values of the constants that [handlers.cpp] takes from the system
    headers: Linux on x86-64 ([<signal.h>], [<bits/siginfo-consts.h>]) and
    [<winnt.h>].  The signal numbers below are the Linux ones, as
    [signalHandler] and the POSIX installation see them; the one signal
    number the Windows build uses is in the module [Windows]. *)

(** [SIGABRT] as [<signal.h>] of the Windows C run-time defines it. *)
Module Windows.
Definition SIGABRT : Z := 22.
End Windows.

Definition SIGILL : Z := 4.
Definition SIGABRT : Z := 6.
Definition SIGBUS : Z := 7.
Definition SIGFPE : Z := 8.
Definition SIGSEGV : Z := 11.

Definition SEGV_MAPERR : Z := 1.
Definition SEGV_ACCERR : Z := 2.
Definition SEGV_BNDERR : Z := 3.
Definition SEGV_PKUERR : Z := 4.

Definition BUS_ADRALN : Z := 1.
Definition BUS_ADRERR : Z := 2.
Definition BUS_OBJERR : Z := 3.
Definition BUS_MCEERR_AR : Z := 4.
Definition BUS_MCEERR_AO : Z := 5.

Definition ILL_ILLOPC : Z := 1.
Definition ILL_ILLOPN : Z := 2.
Definition ILL_ILLADR : Z := 3.
Definition ILL_ILLTRP : Z := 4.
Definition ILL_PRVOPC : Z := 5.
Definition ILL_PRVREG : Z := 6.
Definition ILL_COPROC : Z := 7.
Definition ILL_BADSTK : Z := 8.

Definition FPE_INTDIV : Z := 1.
Definition FPE_INTOVF : Z := 2.
Definition FPE_FLTDIV : Z := 3.
Definition FPE_FLTOVF : Z := 4.
Definition FPE_FLTUND : Z := 5.
Definition FPE_FLTRES : Z := 6.
Definition FPE_FLTINV : Z := 7.
Definition FPE_FLTSUB : Z := 8.

Definition SA_SIGINFO : Z := 4.
Definition SA_ONSTACK : Z := 134217728.

Definition EXCEPTION_DATATYPE_MISALIGNMENT : Z := 2147483650.
Definition EXCEPTION_BREAKPOINT : Z := 2147483651.
Definition EXCEPTION_SINGLE_STEP : Z := 2147483652.
Definition EXCEPTION_ACCESS_VIOLATION : Z := 3221225477.
Definition EXCEPTION_IN_PAGE_ERROR : Z := 3221225478.
Definition EXCEPTION_ILLEGAL_INSTRUCTION : Z := 3221225501.
Definition EXCEPTION_NONCONTINUABLE_EXCEPTION : Z := 3221225509.
Definition EXCEPTION_INVALID_DISPOSITION : Z := 3221225510.
Definition EXCEPTION_ARRAY_BOUNDS_EXCEEDED : Z := 3221225612.
Definition EXCEPTION_FLT_DENORMAL_OPERAND : Z := 3221225613.
Definition EXCEPTION_FLT_DIVIDE_BY_ZERO : Z := 3221225614.
Definition EXCEPTION_FLT_INEXACT_RESULT : Z := 3221225615.
Definition EXCEPTION_FLT_INVALID_OPERATION : Z := 3221225616.
Definition EXCEPTION_FLT_OVERFLOW : Z := 3221225617.
Definition EXCEPTION_FLT_STACK_CHECK : Z := 3221225618.
Definition EXCEPTION_FLT_UNDERFLOW : Z := 3221225619.
Definition EXCEPTION_INT_DIVIDE_BY_ZERO : Z := 3221225620.
Definition EXCEPTION_INT_OVERFLOW : Z := 3221225621.
Definition EXCEPTION_PRIV_INSTRUCTION : Z := 3221225622.
Definition EXCEPTION_STACK_OVERFLOW : Z := 3221225725.

(** ** Data handed to the handlers *)

(** The fields of [siginfo_t] the signal handler reads. *)
Record siginfo_t := { si_code : Z; si_addr : Z }.

(** The general registers of [ucontext_t::uc_mcontext] the handler reads
    ([greg_t] values). *)
Record ucontext_t := { gregs_REG_RIP : Z; gregs_REG_RSP : Z }.

(** The fields of [EXCEPTION_RECORD] the exception filter reads;
    [ExceptionInformation] is a fixed array of 15 words. *)
Record EXCEPTION_RECORD := {
  ExceptionCode : Z;
  ExceptionAddress : Z;
  NumberParameters : Z;
  ExceptionInformation : list Z
}.

(** One call of [ooopsi::abort(reason, printTrace, inSignalHandler,
    faultAddr)]; a null [faultAddr] is [None], otherwise the word it points
    to. *)
Record abort_call := {
  reason : string;
  printTrace : bool;
  inSignalHandler : bool;
  faultAddr : option Z
}.

(** The locals [what], [detail] and [addr] of a classifier when control
    reaches [formatReason]; a null [detail] or [addr] is [None]. *)
Record fault_reason := {
  what : string;
  detail : option string;
  addr : option Z
}.

(** An exception object in flight when [std::terminate] runs, seen through
    the types the handler probes.  An object of a class derived from
    [std::exception] always offers the [std::exception] view
    ([typeid(exc).name()] and [exc.what()]); when its class also derives from
    [std::system_error] it offers the error code as well. *)
Record exception_view := { type_name : string; what_text : string }.

Record error_code := {
  code_message : string;
  category_name : string;
  code_value : Z
}.

Inductive thrown :=
  | ThrownObject (exc : exception_view) (code : option error_code)
  | ThrownCharPtr (err : option string)
  | ThrownOther.

(** What the Windows branch of [onTerminate] obtains from the system when no
    exception is in flight: the frames returned by
    [RtlCaptureStackBackTrace] and, when [libstdc++-6.dll] is loaded, the
    results of [GetProcAddress] (0 for an unknown symbol). *)
Record win_runtime := {
  stackFrames : list Z;
  libstdcpp : option (string → Z)
}.

Inductive platform := Posix | Win32.

(** ** Process state and the installation calls *)

Inductive handler_fn :=
  | fn_onTerminate
  | fn_signalHandler
  | fn_onWindowsException
  | fn_onAbort.

Inductive static_buffer := s_ALT_STACK.

Record stack_t := { ss_sp : static_buffer; ss_flags : Z; ss_size : Z }.

Record sigaction_t := {
  sa_sigaction : handler_fn;
  sa_mask : list Z;
  sa_flags : Z
}.

Inductive disposition :=
  | by_signal (f : handler_fn)
  | by_sigaction (act : sigaction_t).

Inductive os_call :=
  | call_set_terminate (f : handler_fn)
  | call_SetUnhandledExceptionFilter (f : handler_fn)
  | call_signal (sig : Z) (f : handler_fn)
  | call_sigaltstack (ss : stack_t)
  | call_sigaction (sig : Z) (act : sigaction_t).

(** The process-wide state [HandlerSetup] reads and writes.  [os_calls] is
    the history of installation calls issued so far, oldest first. *)
Record process := {
  environ : gmap string string;
  s_handlersRegistered : bool;
  terminate_handler : option handler_fn;
  exception_filter : option handler_fn;
  alternate_stack : option stack_t;
  dispositions : gmap Z disposition;
  errno : Z;
  os_calls : list os_call
}.

(** How the operating system answers the calls that can fail: [None] is
    success (return value 0), [Some e] is failure (return value -1, [errno]
    set to [e]). *)
Record kernel := {
  sigaltstack_result : stack_t → option Z;
  sigaction_result : Z → sigaction_t → option Z
}.

(** ** State and termination monad

    A computation either returns a value or ends the process in
    [ooopsi::abort], which does not return to its caller. *)

Inductive result (A : Type) :=
  | Returned (a : A)
  | Terminated (c : abort_call).
Arguments Returned {A} a.
Arguments Terminated {A} c.

Definition M (A : Type) : Type := process → result A * process.

Global Instance M_ret : MRet M := λ A a p, (Returned a, p).

Global Instance M_bind : MBind M := λ A B f m p,
  match m p with
  | (Returned a, p') => f a p'
  | (Terminated c, p') => (Terminated c, p')
  end.

(** Modelled from the spec: [ooopsi::abort] is declared in [ooopsi.hpp] and
    defined outside [handlers.cpp].  It takes the finished reason, reports
    it and ends the process; it never returns to its caller (the
    [[noreturn]] function [signalHandler] ends in this call).  Here it ends
    the computation and records the arguments of the call. *)
Definition abort {A} (c : abort_call) : M A := λ p, (Terminated c, p).

Definition getenv (name : string) : M (option string) :=
  λ p, (Returned (environ p !! name), p).

Definition get_errno : M Z := λ p, (Returned (errno p), p).

Definition get_s_handlersRegistered : M bool :=
  λ p, (Returned (s_handlersRegistered p), p).

Definition set_s_handlersRegistered (b : bool) : M unit := λ p,
  (Returned (),
   {| environ := environ p; s_handlersRegistered := b;
      terminate_handler := terminate_handler p;
      exception_filter := exception_filter p;
      alternate_stack := alternate_stack p;
      dispositions := dispositions p; errno := errno p;
      os_calls := os_calls p |}).

Definition set_terminate (f : handler_fn) : M unit := λ p,
  (Returned (),
   {| environ := environ p; s_handlersRegistered := s_handlersRegistered p;
      terminate_handler := Some f;
      exception_filter := exception_filter p;
      alternate_stack := alternate_stack p;
      dispositions := dispositions p; errno := errno p;
      os_calls := os_calls p ++ [call_set_terminate f] |}).

Definition SetUnhandledExceptionFilter (f : handler_fn) : M unit := λ p,
  (Returned (),
   {| environ := environ p; s_handlersRegistered := s_handlersRegistered p;
      terminate_handler := terminate_handler p;
      exception_filter := Some f;
      alternate_stack := alternate_stack p;
      dispositions := dispositions p; errno := errno p;
      os_calls := os_calls p ++ [call_SetUnhandledExceptionFilter f] |}).

Definition signal (sig : Z) (f : handler_fn) : M unit := λ p,
  (Returned (),
   {| environ := environ p; s_handlersRegistered := s_handlersRegistered p;
      terminate_handler := terminate_handler p;
      exception_filter := exception_filter p;
      alternate_stack := alternate_stack p;
      dispositions := <[sig := by_signal f]> (dispositions p);
      errno := errno p;
      os_calls := os_calls p ++ [call_signal sig f] |}).

Definition sigaltstack (k : kernel) (ss : stack_t) : M Z := λ p,
  match sigaltstack_result k ss with
  | None =>
      (Returned 0,
       {| environ := environ p; s_handlersRegistered := s_handlersRegistered p;
          terminate_handler := terminate_handler p;
          exception_filter := exception_filter p;
          alternate_stack := Some ss;
          dispositions := dispositions p; errno := errno p;
          os_calls := os_calls p ++ [call_sigaltstack ss] |})
  | Some e =>
      (Returned (-1),
       {| environ := environ p; s_handlersRegistered := s_handlersRegistered p;
          terminate_handler := terminate_handler p;
          exception_filter := exception_filter p;
          alternate_stack := alternate_stack p;
          dispositions := dispositions p; errno := e;
          os_calls := os_calls p ++ [call_sigaltstack ss] |})
  end.

Definition sigaction (k : kernel) (sig : Z) (act : sigaction_t) : M Z := λ p,
  match sigaction_result k sig act with
  | None =>
      (Returned 0,
       {| environ := environ p; s_handlersRegistered := s_handlersRegistered p;
          terminate_handler := terminate_handler p;
          exception_filter := exception_filter p;
          alternate_stack := alternate_stack p;
          dispositions := <[sig := by_sigaction act]> (dispositions p);
          errno := errno p;
          os_calls := os_calls p ++ [call_sigaction sig act] |})
  | Some e =>
      (Returned (-1),
       {| environ := environ p; s_handlersRegistered := s_handlersRegistered p;
          terminate_handler := terminate_handler p;
          exception_filter := exception_filter p;
          alternate_stack := alternate_stack p;
          dispositions := dispositions p; errno := e;
          os_calls := os_calls p ++ [call_sigaction sig act] |})
  end.

(** A range-based [for] over a braced list. *)
Fixpoint for_each {B} (l : list B) (body : B → M unit) : M unit :=
  match l with
  | [] => mret ()
  | x :: l' => body x ;; for_each l' body
  end.

(** A [switch] whose cases all end in [break]: the body of the first label
    equal to the scrutinee, or the [default] body. *)
Fixpoint switch {A} (scrutinee : Z) (cases : list (Z * A)) (default : A) : A :=
  match cases with
  | [] => default
  | (label, body) :: rest =>
      if scrutinee =? label then body else switch scrutinee rest default
  end.

(** ** The handlers *)

Section Handlers.

(** What [handlers.cpp] takes from [internal.hpp] and from the C and C++
    run-time libraries: the macro [REASON_PREFIX], the size of the
    alternate stack, [strerror] and the symbol demangler (the text
    [demangle] leaves in the class-name buffer). *)
Context (REASON_PREFIX : string).
Context (s_ALT_STACK_SIZE : Z).
Context (strerror : Z → string).
Context (demangle : string → string).

(** Modelled from the spec: [formatReason] is declared in [internal.hpp]
    and defined outside [handlers.cpp].  It concatenates the fixed prefix,
    the category, the optional detail in parentheses and the optional
    address in hexadecimal, in the form
    [<prefix><CATEGORY>[ (<detail>)][, address 0x<hex>]], truncating to the
    256-byte destination buffer. *)
Definition formatReason
    (what : string) (detail : option string) (addr : option Z) : string :=
  CStr.snprintf 256
    (REASON_PREFIX +:+ what
     +:+ match detail with
         | Some d => " (" +:+ d +:+ ")"
         | None => EmptyString
         end
     +:+ match addr with
         | Some a => ", address 0x" +:+ CStr.fmt_x a
         | None => EmptyString
         end).

(** *** POSIX: [signalHandler] *)

(** Lines 181-340: the values of [what], [detail] and [addr] after the
    [switch (sig)]. *)
Definition signalHandler_locals
    (sig : Z) (info : siginfo_t) (context : option ucontext_t)
    : fault_reason :=
  let here := Some (to_uintptr (si_addr info)) in
  switch sig
    [ (SIGABRT,
        {| what := "std::abort()"; detail := None; addr := None |});
      (SIGSEGV,
        {| what := "SEGMENTATION FAULT";
           detail :=
             switch (si_code info)
               [ (SEGV_MAPERR,
                   match context with
                   | Some ctx =>
                       let stackPtr := to_uintptr (gregs_REG_RSP ctx) in
                       let stackAddr := to_uintptr (si_addr info) in
                       let rangeLimit := 1024 in
                       if (stackAddr <? stackPtr)
                          && (to_uintptr (stackPtr - stackAddr) <? rangeLimit)
                       then Some "stack overflow"
                       else Some "address not mapped to object"
                   | None => Some "address not mapped to object"
                   end);
                 (SEGV_ACCERR, Some "invalid permissions for mapped object");
                 (SEGV_BNDERR, Some "failed address bound checks");
                 (SEGV_PKUERR,
                   Some "access was denied by memory protection keys") ]
               None;
           addr := here |});
      (SIGBUS,
        {| what := "BUS ERROR";
           detail :=
             switch (si_code info)
               [ (BUS_ADRALN, Some "invalid address alignment");
                 (BUS_ADRERR, Some "nonexistent physical address");
                 (BUS_OBJERR, Some "object-specific hardware error");
                 (BUS_MCEERR_AR,
                   Some "hardware memory error consumed on a machine check");
                 (BUS_MCEERR_AO,
                   Some "hardware memory error detected in process but not consumed") ]
               None;
           addr := here |});
      (SIGILL,
        {| what := "ILLEGAL INSTRUCTION";
           detail :=
             switch (si_code info)
               [ (ILL_ILLOPC, Some "illegal opcode");
                 (ILL_ILLOPN, Some "illegal operand");
                 (ILL_ILLADR, Some "illegal addressing mode");
                 (ILL_ILLTRP, Some "illegal trap");
                 (ILL_PRVOPC, Some "privileged opcode");
                 (ILL_PRVREG, Some "privileged register");
                 (ILL_COPROC, Some "coprocessor error");
                 (ILL_BADSTK, Some "internal stack error") ]
               None;
           addr := here |});
      (SIGFPE,
        {| what := "FLOATING POINT ERROR";
           detail :=
             switch (si_code info)
               [ (FPE_INTDIV, Some "integer divide by zero");
                 (FPE_INTOVF, Some "integer overflow");
                 (FPE_FLTDIV, Some "floating-point divide by zero");
                 (FPE_FLTOVF, Some "floating-point overflow");
                 (FPE_FLTUND, Some "floating-point underflow");
                 (FPE_FLTRES, Some "floating-point inexact result");
                 (FPE_FLTINV, Some "floating-point invalid operation");
                 (FPE_FLTSUB, Some "subscript out of range") ]
               None;
           addr := here |}) ]
    {| what := CStr.snprintf 64 ("SIGNAL " +:+ CStr.fmt_d sig);
       detail := None; addr := None |}.

(** The whole handler: it ends in [abort(reason, true, true, faultAddr)],
    where [faultAddr] points to the saved instruction pointer when a
    context was passed. *)
Definition signalHandler
    (sig : Z) (info : siginfo_t) (context : option ucontext_t) : abort_call :=
  let faultAddr :=
    match context with
    | Some ctx => Some (to_uintptr (gregs_REG_RIP ctx))
    | None => None
    end in
  let r := signalHandler_locals sig info context in
  {| reason := formatReason (what r) (detail r) (addr r);
     printTrace := true; inSignalHandler := true;
     faultAddr := faultAddr |}.

(** *** Windows: [onWindowsException] and [onAbort] *)

(** Lines 38-138: the values of [what], [detail] and [addr] after the
    [switch (excRec.ExceptionCode)]. *)
Definition onWindowsException_locals (excRec : EXCEPTION_RECORD)
    : fault_reason :=
  let plain (w : string) :=
    {| what := w; detail := None; addr := None |} in
  let fpe (d : string) :=
    {| what := "FLOATING POINT ERROR"; detail := Some d; addr := None |} in
  let info (i : nat) := default 0 (ExceptionInformation excRec !! i) in
  switch (ExceptionCode excRec)
    [ (EXCEPTION_ACCESS_VIOLATION,
        {| what := "SEGMENTATION FAULT"; detail := None;
           addr := if 2 <=? NumberParameters excRec
                   then Some (info 1%nat) else None |});
      (EXCEPTION_ARRAY_BOUNDS_EXCEEDED,
        plain "EXCEPTION_ARRAY_BOUNDS_EXCEEDED");
      (EXCEPTION_BREAKPOINT, plain "EXCEPTION_BREAKPOINT");
      (EXCEPTION_DATATYPE_MISALIGNMENT,
        plain "EXCEPTION_DATATYPE_MISALIGNMENT");
      (EXCEPTION_FLT_DENORMAL_OPERAND, fpe "floating-point denormal operand");
      (EXCEPTION_FLT_DIVIDE_BY_ZERO, fpe "floating-point divide by zero");
      (EXCEPTION_FLT_INEXACT_RESULT, fpe " (floating-point inexact result)");
      (EXCEPTION_FLT_INVALID_OPERATION,
        fpe "floating-point invalid operation");
      (EXCEPTION_FLT_OVERFLOW, fpe "floating-point overflow");
      (EXCEPTION_FLT_STACK_CHECK, fpe "floating-point stack over/underflow");
      (EXCEPTION_FLT_UNDERFLOW, fpe "floating-point underflow");
      (EXCEPTION_ILLEGAL_INSTRUCTION, plain "ILLEGAL INSTRUCTION");
      (EXCEPTION_IN_PAGE_ERROR,
        if 3 <=? NumberParameters excRec
        then {| what := "PAGE ERROR";
                detail :=
                  let status := info 2%nat in
                  Some (CStr.snprintf 64
                          ("NTSTATUS=" +:+ CStr.fmt_lu32 status));
                addr := Some (info 1%nat) |}
        else plain "PAGE ERROR");
      (EXCEPTION_INT_DIVIDE_BY_ZERO, fpe "integer divide by zero");
      (EXCEPTION_INT_OVERFLOW, fpe "integer overflow");
      (EXCEPTION_INVALID_DISPOSITION,
        plain "INVALID EXCEPTION HANDLER DISPOSITION");
      (EXCEPTION_NONCONTINUABLE_EXCEPTION, plain "NONCONTINUABLE EXCEPTION");
      (EXCEPTION_PRIV_INSTRUCTION, plain "EXCEPTION_PRIV_INSTRUCTION");
      (EXCEPTION_SINGLE_STEP, plain "EXCEPTION_SINGLE_STEP");
      (EXCEPTION_STACK_OVERFLOW, plain "???") ]
    {| what := "Unrecognized Exception";
       detail :=
         Some (CStr.snprintf 64
                 ("exception code = "
                  +:+ CStr.fmt_lu32 (ExceptionCode excRec)));
       addr := None |}.

(** Lines 140-150: the hand-off.  Every code but
    [EXCEPTION_STACK_OVERFLOW] formats the locals and asks for a trace;
    the stack-overflow branch passes a fixed reason, no trace and no fault
    address.  ([abort] ends the process, so the [return] after it is not
    reached; the [printf] of line 45 writes to the standard output and is
    not part of the hand-off.) *)
Definition onWindowsException (excRec : EXCEPTION_RECORD) : abort_call :=
  let r := onWindowsException_locals excRec in
  if negb (ExceptionCode excRec =? EXCEPTION_STACK_OVERFLOW)
  then {| reason := formatReason (what r) (detail r) (addr r);
          printTrace := true; inSignalHandler := true;
          faultAddr := Some (ExceptionAddress excRec) |}
  else {| reason := REASON_PREFIX +:+ "SEGMENTATION FAULT (stack overflow)";
          printTrace := false; inSignalHandler := true;
          faultAddr := None |}.

(** The text line 45 prints before classifying. *)
Definition onWindowsException_stdout (excRec : EXCEPTION_RECORD) : string :=
  "winExc, addr=" +:+ CStr.fmt_x (ExceptionAddress excRec)
  +:+ CStr.newline.

Definition onAbort (sig : Z) : abort_call :=
  {| reason := formatReason "std::abort()" None None;
     printTrace := true; inSignalHandler := true; faultAddr := None |}.

(** *** [onTerminate] *)

(** The [catch] clauses of lines 365-395, each as the detail it writes
    when it accepts the exception. *)
(** The expansions of the three format strings of lines 369, 380 and
    389, before they are cut to the size of [detail]. *)
Definition system_error_text (err : error_code) : string :=
  "std::system_error: " +:+ CStr.dquote +:+ code_message err
  +:+ CStr.dquote +:+ " (" +:+ category_name err +:+ ":"
  +:+ CStr.fmt_d (code_value err) +:+ ")".

Definition exception_text (className : string) (exc : exception_view)
    : string :=
  className +:+ ": " +:+ CStr.dquote +:+ what_text exc +:+ CStr.dquote.

Definition c_string_text (err : string) : string :=
  "exception (const char*): " +:+ CStr.dquote +:+ err +:+ CStr.dquote.

Definition catch_system_error (e : thrown) : option string :=
  match e with
  | ThrownObject _ (Some err) =>
      Some (CStr.snprintf 128 (system_error_text err))
  | _ => None
  end.

Definition catch_exception (e : thrown) : option string :=
  match e with
  | ThrownObject exc _ =>
      let className := demangle (type_name exc) in
      Some (CStr.snprintf 128 (exception_text className exc))
  | _ => None
  end.

Definition catch_const_char_ptr (e : thrown) : option string :=
  match e with
  | ThrownCharPtr err =>
      let err := match err with Some s => s | None => "<null>" end in
      Some (CStr.snprintf 128 (c_string_text err))
  | _ => None
  end.

Definition catch_all (e : thrown) : string :=
  CStr.strncpy 128 "unknown exception".

(** [try { rethrow } catch ... ]: the clauses are tried in the order of the
    source and the first that accepts the exception runs. *)
Definition onTerminate_detail (e : thrown) : string :=
  match catch_system_error e with
  | Some d => d
  | None =>
      match catch_exception e with
      | Some d => d
      | None =>
          match catch_const_char_ptr e with
          | Some d => d
          | None => catch_all e
          end
      end
  end.

(** The scan of lines 434-450: the first frame, and for it the first
    entry of [possibleCallers], with
    [curFunc >= symbolAddress && curFunc - symbolAddress <= 64]. *)
Fixpoint scan_callers (curFunc : Z) (possibleCallers : list (Z * string))
    : option abort_call :=
  match possibleCallers with
  | [] => None
  | (symbolAddress, abortMessage) :: rest =>
      if (symbolAddress <=? curFunc)
         && (to_uintptr (curFunc - symbolAddress) <=? 64)
      then Some {| reason := formatReason abortMessage None (Some curFunc);
                   printTrace := true; inSignalHandler := false;
                   faultAddr := Some curFunc |}
      else scan_callers curFunc rest
  end.

Fixpoint scan_frames (frames : list Z) (possibleCallers : list (Z * string))
    : option abort_call :=
  match frames with
  | [] => None
  | curFunc :: rest =>
      match scan_callers (to_uintptr curFunc) possibleCallers with
      | Some c => Some c
      | None => scan_frames rest possibleCallers
      end
  end.

(** [onTerminate]: [current] is [std::current_exception()]; [rt] is what
    the Windows build reads from the system when there is none. *)
Definition onTerminate
    (pl : platform) (rt : win_runtime) (current : option thrown)
    : abort_call :=
  let stackTrace := true in
  let inSignalHandler := false in
  let fallback :=
    {| reason := formatReason "std::terminate()" None None;
       printTrace := true; inSignalHandler := false; faultAddr := None |} in
  match current with
  | Some e =>
      let what := "std::terminate()" in
      let detail := onTerminate_detail e in
      {| reason := formatReason what (Some detail) None;
         printTrace := stackTrace; inSignalHandler := inSignalHandler;
         faultAddr := None |}
  | None =>
      match pl with
      | Win32 =>
          match libstdcpp rt with
          | Some GetProcAddress =>
              let possibleCallers :=
                [ (to_uintptr (GetProcAddress "__cxa_pure_virtual"),
                   "PURE VIRTUAL FUNCTION CALL");
                  (to_uintptr (GetProcAddress "__cxa_deleted_virtual"),
                   "DELETED VIRTUAL FUNCTION CALL") ] in
              match scan_frames (stackFrames rt) possibleCallers with
              | Some c => c
              | None => fallback
              end
          | None => fallback
          end
      | Posix => fallback
      end
  end.

(** *** [HandlerSetup::HandlerSetup] *)

(** The lambda [err] of lines 491-496. *)
Definition err {A} (what : string) (param : Z) : M A :=
  e ← get_errno;
  let messageBuffer :=
    CStr.snprintf 256
      (what +:+ "(" +:+ CStr.fmt_d param +:+ ") failed: " +:+ strerror e) in
  abort {| reason := messageBuffer; printTrace := true;
           inSignalHandler := false; faultAddr := None |}.

(** The body of the loop of lines 511-522, for one signal. *)
Definition catch_fatal_signal (k : kernel) (sig : Z) : M unit :=
  let act :=
    {| sa_sigaction := fn_signalHandler; sa_mask := [];
       sa_flags := Z.lor SA_ONSTACK SA_SIGINFO |} in
  rc ← sigaction k sig act;
  if negb (rc =? 0) then err "sigaction" sig else mret ().

(** Lines 476-523: the installation proper, once the two guards have let
    control through. *)
Definition install_handlers (pl : platform) (k : kernel) : M unit :=
  set_terminate fn_onTerminate;;
  match pl with
  | Win32 =>
      SetUnhandledExceptionFilter fn_onWindowsException;;
      signal Windows.SIGABRT fn_onAbort
  | Posix =>
      let altStack :=
        {| ss_sp := s_ALT_STACK; ss_flags := 0;
           ss_size := s_ALT_STACK_SIZE |} in
      rc ← sigaltstack k altStack;
      (if negb (rc =? 0)
       then err "sigaltstack" (to_int s_ALT_STACK_SIZE)
       else mret ());;
      for_each [SIGABRT; SIGSEGV; SIGBUS; SIGILL; SIGFPE]
        (catch_fatal_signal k)
  end.

Definition HandlerSetup (pl : platform) (k : kernel) : M unit :=
  opt ← getenv "OOOPSI_DISABLE_HANDLERS";
  if match opt with Some v => String.eqb v "1" | None => false end
  then mret ()
  else
    registered ← get_s_handlersRegistered;
    if (registered : bool) then mret ()
    else
      set_s_handlersRegistered true;;
      install_handlers pl k.

(** [~HandlerSetup] does nothing. *)
Definition HandlerSetup_destructor : M unit := mret ().

End Handlers.

(** ** A sample environment

    Concrete values for what the handlers take from outside [handlers.cpp],
    used to run the model on examples. *)

Definition sample_prefix : string := "!!! TERMINATING DUE TO ".

Definition sample_strerror (e : Z) : string :=
  switch e
    [ (1, "Operation not permitted");
      (12, "Cannot allocate memory");
      (22, "Invalid argument") ]
    ("Unknown error " +:+ CStr.fmt_d e).

Definition sample_demangle (mangled : string) : string :=
  if String.eqb mangled "St13runtime_error" then "std::runtime_error"
  else if String.eqb mangled "St12system_error" then "std::system_error"
  else mangled.

(** [n] copies of the character [c]. *)
Fixpoint repeat_char (n : nat) (c : ascii) : string :=
  match n with
  | O => EmptyString
  | S n' => String c (repeat_char n' c)
  end.

(** A process in which nothing has been installed yet. *)
Definition fresh_process (env : gmap string string) : process :=
  {| environ := env; s_handlersRegistered := false;
     terminate_handler := None; exception_filter := None;
     alternate_stack := None; dispositions := ∅; errno := 0;
     os_calls := [] |}.

(** A kernel that accepts every call, and one that rejects [sigaction] for
    [SIGBUS] with [EINVAL]. *)
Definition kernel_ok : kernel :=
  {| sigaltstack_result := λ _, None; sigaction_result := λ _ _, None |}.

Definition kernel_rejecting_SIGBUS : kernel :=
  {| sigaltstack_result := λ _, None;
     sigaction_result := λ sig _, if sig =? SIGBUS then Some 22 else None |}.

Definition kernel_rejecting_sigaltstack : kernel :=
  {| sigaltstack_result := λ _, Some 12; sigaction_result := λ _ _, None |}.

(** An environment that disables the handlers. *)
Definition disabling_environ : gmap string string :=
  {[ "OOOPSI_DISABLE_HANDLERS" := "1" ]}.

(** A fault eight bytes below the stack pointer, an integer division by
    zero, an inexact floating-point result, a Windows exception record for a
    given code, and thrown [std::system_error]s. *)
Definition overflow_info : siginfo_t :=
  {| si_code := SEGV_MAPERR; si_addr := 140737488346000 |}.

Definition overflow_context : ucontext_t :=
  {| gregs_REG_RIP := 4198400; gregs_REG_RSP := 140737488346008 |}.

Definition intdiv_info : siginfo_t :=
  {| si_code := FPE_INTDIV; si_addr := 4198400 |}.

Definition windows_record (code : Z) : EXCEPTION_RECORD :=
  {| ExceptionCode := code; ExceptionAddress := 4198400;
     NumberParameters := 0; ExceptionInformation := replicate 15 0 |}.

Definition inexact_info : siginfo_t :=
  {| si_code := FPE_FLTRES; si_addr := 4198400 |}.

(** A [std::system_error] whose message has 130 characters. *)
Definition long_error_code : error_code :=
  {| code_message := repeat_char 130 "x"; category_name := "generic";
     code_value := 32 |}.

Definition long_system_error : thrown :=
  ThrownObject
    {| type_name := "St12system_error"; what_text := repeat_char 130 "x" |}
    (Some long_error_code).

Definition broken_pipe : thrown :=
  ThrownObject
    {| type_name := "St12system_error"; what_text := "Broken pipe" |}
    (Some {| code_message := "Broken pipe"; category_name := "generic";
             code_value := 32 |}).

Definition no_runtime : win_runtime :=
  {| stackFrames := []; libstdcpp := None |}.

(** The program changing its environment between two constructions
    ([setenv], [unsetenv]). *)
Definition with_environ (env : gmap string string) (p : process) : process :=
  {| environ := env; s_handlersRegistered := s_handlersRegistered p;
     terminate_handler := terminate_handler p;
     exception_filter := exception_filter p;
     alternate_stack := alternate_stack p;
     dispositions := dispositions p; errno := errno p;
     os_calls := os_calls p |}.

(** A kernel accepts the calls of the POSIX installation. *)
Definition accepts_all (k : kernel) : Prop :=
  (∀ ss, sigaltstack_result k ss = None)
  ∧ (∀ sig act, sigaction_result k sig act = None).

(** The [struct sigaction] and the [stack_t] the POSIX installation
    passes. *)
Definition installed_action : sigaction_t :=
  {| sa_sigaction := fn_signalHandler; sa_mask := [];
     sa_flags := Z.lor SA_ONSTACK SA_SIGINFO |}.

Definition installed_stack (size : Z) : stack_t :=
  {| ss_sp := s_ALT_STACK; ss_flags := 0; ss_size := size |}.

(** The calls of a complete installation, in order. *)
Definition installation_calls (size : Z) (pl : platform) : list os_call :=
  match pl with
  | Posix =>
      [ call_set_terminate fn_onTerminate;
        call_sigaltstack (installed_stack size);
        call_sigaction SIGABRT installed_action;
        call_sigaction SIGSEGV installed_action;
        call_sigaction SIGBUS installed_action;
        call_sigaction SIGILL installed_action;
        call_sigaction SIGFPE installed_action ]
  | Win32 =>
      [ call_set_terminate fn_onTerminate;
        call_SetUnhandledExceptionFilter fn_onWindowsException;
        call_signal Windows.SIGABRT fn_onAbort ]
  end.

(** The state a complete installation leaves behind when it starts from
    [p]. *)
Definition installed (size : Z) (pl : platform) (p : process) : process :=
  {| environ := environ p;
     s_handlersRegistered := true;
     terminate_handler := Some fn_onTerminate;
     exception_filter :=
       match pl with
       | Win32 => Some fn_onWindowsException
       | Posix => exception_filter p
       end;
     alternate_stack :=
       match pl with
       | Posix => Some (installed_stack size)
       | Win32 => alternate_stack p
       end;
     dispositions :=
       match pl with
       | Posix =>
           <[SIGFPE := by_sigaction installed_action]>
             (<[SIGILL := by_sigaction installed_action]>
                (<[SIGBUS := by_sigaction installed_action]>
                   (<[SIGSEGV := by_sigaction installed_action]>
                      (<[SIGABRT := by_sigaction installed_action]>
                         (dispositions p)))))
       | Win32 =>
           <[Windows.SIGABRT := by_signal fn_onAbort]> (dispositions p)
       end;
     errno := errno p;
     os_calls := os_calls p ++ installation_calls size pl |}.

(** The computation [m] leaves the component [f] of the process state as it
    found it, whatever its outcome. *)
Definition preserves {A B} (f : process → B) (m : M A) : Prop :=
  ∀ p, f (m p).2 = f p.

(** The hand-off of a failed installation call [name(param)] that left
    [errno] at [e]: the untruncated text of the lambda [err], a trace
    requested, outside signal context. *)
Definition setup_failure (strerror : Z → string) (name : string) (param e : Z)
    : abort_call :=
  {| reason :=
       name +:+ "(" +:+ CStr.fmt_d param +:+ ") failed: " +:+ strerror e;
     printTrace := true; inSignalHandler := false; faultAddr := None |}.

(** The name of the environment variable that disables the handlers. *)
Definition OOOPSI_DISABLE_HANDLERS : string := "OOOPSI_DISABLE_HANDLERS".

(** The sub-reason codes for which [signalHandler] has a detail text: the
    [case] labels of the inner [switch] of each signal. *)
Definition detailed_si_codes (sig : Z) : list Z :=
  switch sig
    [ (SIGSEGV, [SEGV_MAPERR; SEGV_ACCERR; SEGV_BNDERR; SEGV_PKUERR]);
      (SIGBUS,
        [BUS_ADRALN; BUS_ADRERR; BUS_OBJERR; BUS_MCEERR_AR; BUS_MCEERR_AO]);
      (SIGILL,
        [ILL_ILLOPC; ILL_ILLOPN; ILL_ILLADR; ILL_ILLTRP; ILL_PRVOPC;
         ILL_PRVREG; ILL_COPROC; ILL_BADSTK]);
      (SIGFPE,
        [FPE_INTDIV; FPE_INTOVF; FPE_FLTDIV; FPE_FLTOVF; FPE_FLTUND;
         FPE_FLTRES; FPE_FLTINV; FPE_FLTSUB]) ]
    [].

(** The exception codes [onWindowsException] has a [case] for. *)
Definition recognised_exception_codes : list Z :=
  [ EXCEPTION_ACCESS_VIOLATION; EXCEPTION_ARRAY_BOUNDS_EXCEEDED;
    EXCEPTION_BREAKPOINT; EXCEPTION_DATATYPE_MISALIGNMENT;
    EXCEPTION_FLT_DENORMAL_OPERAND; EXCEPTION_FLT_DIVIDE_BY_ZERO;
    EXCEPTION_FLT_INEXACT_RESULT; EXCEPTION_FLT_INVALID_OPERATION;
    EXCEPTION_FLT_OVERFLOW; EXCEPTION_FLT_STACK_CHECK;
    EXCEPTION_FLT_UNDERFLOW; EXCEPTION_ILLEGAL_INSTRUCTION;
    EXCEPTION_IN_PAGE_ERROR; EXCEPTION_INT_DIVIDE_BY_ZERO;
    EXCEPTION_INT_OVERFLOW; EXCEPTION_INVALID_DISPOSITION;
    EXCEPTION_NONCONTINUABLE_EXCEPTION; EXCEPTION_PRIV_INSTRUCTION;
    EXCEPTION_SINGLE_STEP; EXCEPTION_STACK_OVERFLOW ].

(** The return address [f] lies at the start of the function at [sym] or at
    most 64 bytes into it. *)
Definition shortly_after (sym f : Z) : Prop := sym ≤ f ∧ f - sym ≤ 64.

(** No frame of [frames] returns into either of the functions at [pv] and
    [dv]. *)
Definition no_slot_frame (pv dv : Z) (frames : list Z) : Prop :=
  Forall (λ f, ¬ shortly_after pv (to_uintptr f)
               ∧ ¬ shortly_after dv (to_uintptr f)) frames.

(** The report [onTerminate] falls back to. *)
Definition terminate_fallback (REASON_PREFIX : string) : abort_call :=
  {| reason := formatReason REASON_PREFIX "std::terminate()" None None;
     printTrace := true; inSignalHandler := false; faultAddr := None |}.

(** The report of a call through the virtual-function slot [message]
    stands for, found at return address [f]. *)
Definition slot_call (REASON_PREFIX message : string) (f : Z) : abort_call :=
  {| reason := formatReason REASON_PREFIX message None (Some f);
     printTrace := true; inSignalHandler := false; faultAddr := Some f |}.

(** The computation [m] neither reads nor writes the environment: run in a
    process with another environment, it does the same and leaves that
    environment in place. *)
Definition env_blind {A} (m : M A) : Prop :=
  ∀ env p, m (with_environ env p) = ((m p).1, with_environ env (m p).2).

(** The computation [m] only appends to the history of installation
    calls. *)
Definition appends_calls {A} (m : M A) : Prop :=
  ∀ p, ∃ more, os_calls (m p).2 = os_calls p ++ more.

(** A sample run-time image for the Windows scan: [libstdc++-6.dll] with
    its two entry points, and a backtrace whose second frame returns into
    [__cxa_pure_virtual]. *)
Definition sample_GetProcAddress (symbolName : string) : Z :=
  if String.eqb symbolName "__cxa_pure_virtual" then 1879048192
  else if String.eqb symbolName "__cxa_deleted_virtual" then 1879052288
  else 0.

Definition pure_call_runtime : win_runtime :=
  {| stackFrames := [4198400; 1879048210; 4202496];
     libstdcpp := Some sample_GetProcAddress |}.

(** An environment in which the variable has another value, next to an
    unrelated variable. *)
Definition other_value_environ : gmap string string :=
  <[ "HOME" := "/root" ]> {[ "OOOPSI_DISABLE_HANDLERS" := "0" ]}.

(** ** Facts about C strings and formatting *)

Module CStrFacts.
Import CStr.

Lemma length_app (a b : string) :
  String.length (a +:+ b) = (String.length a + String.length b)%nat.
Proof. induction a as [|c a IH]; simpl; [done | by rewrite IH]. Qed.

Lemma app_assoc (a b c : string) : (a +:+ b) +:+ c = a +:+ b +:+ c.
Proof. induction a as [|x a IH]; simpl; [done | by rewrite IH]. Qed.

Lemma app_empty_r (a : string) : a +:+ EmptyString = a.
Proof. induction a as [|x a IH]; simpl; [done | by rewrite IH]. Qed.

Lemma take_all (n : nat) (s : string) :
  (String.length s ≤ n)%nat → take n s = s.
Proof.
  revert n. induction s as [|c s IH]; intros [|n] Hn; simpl in *;
    try done; try lia.
  rewrite IH; [done | lia].
Qed.

Lemma take_app (n : nat) (a b : string) :
  (String.length a ≤ n)%nat →
  take n (a +:+ b) = a +:+ take (n - String.length a) b.
Proof.
  revert n. induction a as [|c a IH]; intros n Hn; simpl in *.
  - by rewrite Nat.sub_0_r.
  - destruct n as [|n]; [lia |]. simpl. rewrite IH; [done | lia].
Qed.

Lemma take_length (n : nat) (s : string) :
  (String.length (take n s) ≤ n)%nat.
Proof.
  revert s. induction n as [|n IH]; intros [|c s]; simpl; try lia.
  specialize (IH s). lia.
Qed.

Lemma prefixb_refl_app (p rest : string) : prefixb p (p +:+ rest) = true.
Proof.
  induction p as [|c p IH]; simpl; [done |].
  by rewrite Ascii.eqb_refl, IH.
Qed.

Lemma prefixb_app_l (a p s : string) :
  prefixb (a +:+ p) (a +:+ s) = prefixb p s.
Proof.
  induction a as [|c a IH]; simpl; [done |].
  by rewrite Ascii.eqb_refl, IH.
Qed.

Lemma prefixb_spec (p s : string) :
  prefixb p s = true ↔ ∃ rest, s = p +:+ rest.
Proof.
  split.
  - revert s. induction p as [|c p IH]; intros s H; simpl in *.
    + by exists s.
    + destruct s as [|d s]; [done |].
      apply andb_true_iff in H as [Hc Hp].
      apply Ascii.eqb_eq in Hc as ->.
      destruct (IH _ Hp) as [rest ->]. by exists rest.
  - intros [rest ->]. apply prefixb_refl_app.
Qed.

Lemma occursb_app (pre sub post : string) :
  occursb sub (pre +:+ sub +:+ post) = true.
Proof.
  induction pre as [|c pre IH]; simpl.
  - destruct (sub +:+ post) eqn:E; simpl.
    + destruct sub; simpl in *; [done | discriminate].
    + rewrite <- E, prefixb_refl_app. done.
  - rewrite IH. by rewrite orb_true_r.
Qed.

Lemma occursb_spec (sub s : string) :
  occursb sub s = true ↔ ∃ pre post, s = pre +:+ sub +:+ post.
Proof.
  split.
  - induction s as [|c s IH]; simpl; intros H.
    + rewrite orb_false_r in H. apply prefixb_spec in H as [rest H].
      by exists EmptyString, rest.
    + apply orb_true_iff in H as [H | H].
      * apply prefixb_spec in H as [rest H]. by exists EmptyString, rest.
      * destruct (IH H) as (pre & post & ->).
        by exists (String c pre), post.
  - intros (pre & post & ->). apply occursb_app.
Qed.

Lemma utoa_length (base : Z) (width : nat) (n : Z) (acc : string) :
  (String.length (utoa base width n acc) ≤ width + String.length acc)%nat.
Proof.
  revert n acc. induction width as [|w IH]; intros n acc; simpl; [lia |].
  destruct (n <? base); simpl; [lia |].
  etransitivity; [apply IH |]. simpl. lia.
Qed.

Lemma fmt_d_length (i : Z) : (String.length (fmt_d i) ≤ 11)%nat.
Proof.
  unfold fmt_d. destruct (i <? 0); simpl.
  - pose proof (utoa_length 10 10 (- i) EmptyString). simpl in *. lia.
  - pose proof (utoa_length 10 10 i EmptyString). simpl in *. lia.
Qed.

Lemma fmt_x_length (a : Z) : (String.length (fmt_x a) ≤ 16)%nat.
Proof.
  unfold fmt_x.
  pose proof (utoa_length 16 16 (a mod 2 ^ 64) EmptyString).
  simpl in *. lia.
Qed.

Lemma digit_value_char (d : Z) :
  0 ≤ d < 16 → digit_value (digit_char d) = d.
Proof.
  intros H.
  assert (d = 0 ∨ d = 1 ∨ d = 2 ∨ d = 3 ∨ d = 4 ∨ d = 5 ∨ d = 6 ∨ d = 7
          ∨ d = 8 ∨ d = 9 ∨ d = 10 ∨ d = 11 ∨ d = 12 ∨ d = 13 ∨ d = 14
          ∨ d = 15) as Hd by lia.
  repeat (destruct Hd as [-> | Hd]; [reflexivity |]). by subst d.
Qed.

Lemma atou_app (base : Z) (a b : string) (acc : Z) :
  atou base (a +:+ b) acc = atou base b (atou base a acc).
Proof.
  revert acc. induction a as [|c a IH]; intros acc; simpl; [done |].
  apply IH.
Qed.

Lemma digit_char_not_minus (d : Z) :
  0 ≤ d < 10 → Ascii.eqb (digit_char d) "-" = false.
Proof.
  intros H.
  assert (d = 0 ∨ d = 1 ∨ d = 2 ∨ d = 3 ∨ d = 4 ∨ d = 5 ∨ d = 6 ∨ d = 7
          ∨ d = 8 ∨ d = 9) as Hd by lia.
  repeat (destruct Hd as [-> | Hd]; [reflexivity |]). by subst d.
Qed.

(** [utoa] writes the digits of [n] in front of [acc]: there is at least
one, and read back they give [n].  The width must cover the value. *)
Lemma utoa_digits (base : Z) (w : nat) (n : Z) (acc : string) :
  1 < base ≤ 16 → 0 ≤ n < base ^ Z.of_nat (S w) →
  ∃ d ds,
    utoa base (S w) n acc = String (digit_char d) ds +:+ acc
    ∧ 0 ≤ d < base
    ∧ ∀ a, atou base (String (digit_char d) ds) a
           = a * base ^ Z.of_nat (S (String.length ds)) + n.
Proof.
  intros Hb. revert n acc.
  induction w as [|w IH]; intros n acc Hn;
    pose proof (Z.mod_pos_bound n base) as Hmod;
    rewrite Nat2Z.inj_succ, Z.pow_succ_r in Hn by lia.
  - change (utoa base 1 n acc)
      with (let acc' := String (digit_char (n mod base)) acc in
            if n <? base then acc' else acc').
    assert (n < base) as Hlt by (simpl in Hn; lia).
    exists (n mod base), EmptyString. cbv zeta.
    split; [by destruct (n <? base) |]. split; [lia |].
    intros a. simpl atou. rewrite digit_value_char by lia.
    rewrite Z.mod_small by lia. simpl String.length.
    change (Z.of_nat 1) with 1. by rewrite Z.pow_1_r.
  - change (utoa base (S (S w)) n acc)
      with (let acc' := String (digit_char (n mod base)) acc in
            if n <? base then acc' else utoa base (S w) (n / base) acc').
    cbv zeta. destruct (Z.ltb_spec n base) as [Hlt | Hge].
    + exists (n mod base), EmptyString.
      split; [done |]. split; [lia |].
      intros a. simpl atou. rewrite digit_value_char by lia.
      rewrite Z.mod_small by lia. simpl String.length.
      change (Z.of_nat 1) with 1. by rewrite Z.pow_1_r.
    + assert (0 ≤ n / base < base ^ Z.of_nat (S w)) as Hq.
      { split; [apply Z.div_pos; lia |].
        apply Z.div_lt_upper_bound; lia. }
      destruct (IH (n / base) (String (digit_char (n mod base)) acc) Hq)
        as (d & ds & -> & Hd & Hds).
      exists d, (ds +:+ String (digit_char (n mod base)) EmptyString).
      split; [simpl; f_equal; by rewrite app_assoc |]. split; [done |].
      intros a.
      change (String (digit_char d)
                (ds +:+ String (digit_char (n mod base)) EmptyString))
        with (String (digit_char d) ds
              +:+ String (digit_char (n mod base)) EmptyString).
      rewrite atou_app, Hds. simpl atou.
      rewrite digit_value_char by lia.
      rewrite length_app. simpl String.length.
      replace (Z.of_nat (S (String.length ds + 1)))
        with (Z.of_nat (S (String.length ds)) + 1) by lia.
      rewrite Z.pow_add_r, Z.pow_1_r by lia.
      pose proof (Z.div_mod n base ltac:(lia)) as Hdm.
      set (q := n / base) in *. set (r := n mod base) in *.
      rewrite Hdm. ring.
Qed.

(** [%d] prints the decimal numeral of its argument: reading the text back
gives the [int] that was printed. *)
Lemma fmt_d_roundtrip (i : Z) :
  - 2 ^ 31 ≤ i < 2 ^ 31 → atoi (fmt_d i) = i.
Proof.
  intros Hi. unfold fmt_d. destruct (Z.ltb_spec i 0) as [Hneg | Hpos].
  - destruct (utoa_digits 10 9 (- i) EmptyString)
      as (d & ds & -> & Hd & Hds); [lia | simpl; lia |].
    rewrite app_empty_r. unfold atoi. rewrite Ascii.eqb_refl, Hds. lia.
  - destruct (utoa_digits 10 9 i EmptyString)
      as (d & ds & -> & Hd & Hds); [lia | simpl; lia |].
    rewrite app_empty_r. unfold atoi.
    rewrite digit_char_not_minus, Hds by lia. lia.
Qed.

Lemma all_chars_app (P : ascii → bool) (a b : string) :
  all_chars P (a +:+ b) = all_chars P a && all_chars P b.
Proof.
  induction a as [|c a IH]; simpl; [done |].
  by rewrite IH, andb_assoc.
Qed.

Lemma all_chars_take (P : ascii → bool) (n : nat) (s : string) :
  all_chars P s = true → all_chars P (take n s) = true.
Proof.
  revert s. induction n as [|n IH]; intros [|c s] H; simpl in *; try done.
  apply andb_true_iff in H as [-> H]. by apply IH.
Qed.

Lemma all_chars_utoa (P : ascii → bool) base width n acc :
  0 < base → (∀ d, 0 ≤ d < base → P (digit_char d) = true) →
  all_chars P acc = true → all_chars P (utoa base width n acc) = true.
Proof.
  intros Hb HP. revert n acc.
  induction width as [|w IH]; intros n acc Hacc; simpl; [done |].
  assert (all_chars P (String (digit_char (n mod base)) acc) = true) as H.
  { simpl. rewrite HP by (apply Z.mod_pos_bound; lia). done. }
  destruct (n <? base); [done | by apply IH].
Qed.

Lemma decimal_digit_plain (d : Z) :
  0 ≤ d < 10 →
  negb (Ascii.eqb (digit_char d) "(") && negb (Ascii.eqb (digit_char d) ")")
  = true.
Proof.
  intros H.
  assert (d = 0 ∨ d = 1 ∨ d = 2 ∨ d = 3 ∨ d = 4 ∨ d = 5 ∨ d = 6 ∨ d = 7
          ∨ d = 8 ∨ d = 9) as Hd by lia.
  repeat (destruct Hd as [-> | Hd]; [reflexivity |]). by subst d.
Qed.

(** A bare label followed by an unsigned decimal number stays bare, also
after [snprintf] has cut it. *)
Lemma bare_labelled_number (size : nat) (c : ascii) (label : string) (n : Z) :
  bare (String c label) = true →
  bare (snprintf size (String c label +:+ fmt_lu32 n)) = true.
Proof.
  unfold bare, snprintf. intros H.
  apply andb_true_iff in H as [Hsp Hall]. apply andb_true_iff. split.
  - destruct (size - 1)%nat; [done |]. exact Hsp.
  - apply all_chars_take. rewrite all_chars_app, Hall. simpl.
    apply all_chars_utoa; [lia | apply decimal_digit_plain | done].
Qed.

End CStrFacts.

(** ** The classifiers *)

(** Decide the next comparison of a [switch] from the hypotheses. *)
Ltac switch_step :=
  match goal with
  | |- context [?x =? ?y] =>
      destruct (Z.eqb_spec x y); try congruence; try lia
  end.

Section ClassifierFacts.

Context (REASON_PREFIX : string).

Lemma to_uintptr_range (v : Z) : 0 ≤ to_uintptr v < 2 ^ 64.
Proof. unfold to_uintptr. apply Z.mod_pos_bound. lia. Qed.

Lemma signalHandler_handoff sig info context :
  let c := signalHandler REASON_PREFIX sig info context in
  let r := signalHandler_locals sig info context in
  reason c = formatReason REASON_PREFIX (what r) (detail r) (addr r)
  ∧ printTrace c = true ∧ inSignalHandler c = true.
Proof. done. Qed.

Lemma segv_maperr_locals info ctx :
  si_code info = SEGV_MAPERR →
  detail (signalHandler_locals SIGSEGV info (Some ctx)) =
    if (to_uintptr (si_addr info) <? to_uintptr (gregs_REG_RSP ctx))
       && (to_uintptr (to_uintptr (gregs_REG_RSP ctx)
                       - to_uintptr (si_addr info)) <? 1024)
    then Some "stack overflow"
    else Some "address not mapped to object".
Proof. intros H. unfold signalHandler_locals. simpl. by rewrite H. Qed.

(** C2: for a [SIGSEGV] with sub-reason [SEGV_MAPERR] and a register
    context, the detail is "stack overflow" exactly when the faulting
    address is strictly below the stack pointer and less than 1024 bytes
    away from it, and "address not mapped to object" otherwise; for every
    other sub-reason code the detail is never "stack overflow", and
    [SEGV_ACCERR], [SEGV_BNDERR] and [SEGV_PKUERR] keep their own texts. *)
Theorem segv_stack_overflow_heuristic :
  (∀ info ctx,
     si_code info = SEGV_MAPERR →
     let stackPtr := to_uintptr (gregs_REG_RSP ctx) in
     let stackAddr := to_uintptr (si_addr info) in
     let d := detail (signalHandler_locals SIGSEGV info (Some ctx)) in
     (d = Some "stack overflow"
      ↔ stackAddr < stackPtr ∧ stackPtr - stackAddr < 1024)
     ∧ (d ≠ Some "stack overflow" → d = Some "address not mapped to object"))
  ∧ (∀ info context,
       si_code info ≠ SEGV_MAPERR →
       let d := detail (signalHandler_locals SIGSEGV info context) in
       d ≠ Some "stack overflow"
       ∧ (si_code info = SEGV_ACCERR →
          d = Some "invalid permissions for mapped object")
       ∧ (si_code info = SEGV_BNDERR →
          d = Some "failed address bound checks")
       ∧ (si_code info = SEGV_PKUERR →
          d = Some "access was denied by memory protection keys")).
Proof.
  split.
  - intros info ctx Hcode stackPtr stackAddr d.
    subst d. rewrite (segv_maperr_locals _ _ Hcode).
    fold stackPtr stackAddr.
    pose proof (to_uintptr_range (gregs_REG_RSP ctx)) as Hsp.
    pose proof (to_uintptr_range (si_addr info)) as Hsa.
    fold stackPtr in Hsp. fold stackAddr in Hsa.
    destruct (Z.ltb_spec stackAddr stackPtr) as [Hlt | Hge]; simpl.
    + assert (to_uintptr (stackPtr - stackAddr) = stackPtr - stackAddr)
        as -> by (unfold to_uintptr; apply Z.mod_small; lia).
      destruct (Z.ltb_spec (stackPtr - stackAddr) 1024); simpl.
      * split; [split; [lia | done] | done].
      * split; [split; [discriminate | lia] | done].
    + split; [split; [discriminate | lia] | done].
  - intros info context Hcode d. subst d.
    unfold signalHandler_locals. simpl.
    destruct (Z.eqb_spec (si_code info) SEGV_MAPERR); [done |].
    destruct (Z.eqb_spec (si_code info) SEGV_ACCERR) as [-> |].
    { repeat split; try done. }
    destruct (Z.eqb_spec (si_code info) SEGV_BNDERR) as [-> |].
    { repeat split; try done. }
    destruct (Z.eqb_spec (si_code info) SEGV_PKUERR) as [-> |].
    { repeat split; try done. }
    repeat split; done.
Qed.

(** C9: a signal number outside the registered set is reported with the
    category "SIGNAL <n>", no detail and no address, and is handed to
    [abort] like every other signal. *)
Theorem unregistered_signal_reported sig info context :
  sig ≠ SIGABRT → sig ≠ SIGSEGV → sig ≠ SIGBUS → sig ≠ SIGILL →
  sig ≠ SIGFPE →
  signalHandler_locals sig info context =
    {| what := "SIGNAL " +:+ CStr.fmt_d sig; detail := None; addr := None |}
  ∧ signalHandler REASON_PREFIX sig info context =
      {| reason :=
           formatReason REASON_PREFIX ("SIGNAL " +:+ CStr.fmt_d sig)
             None None;
         printTrace := true; inSignalHandler := true;
         faultAddr :=
           match context with
           | Some ctx => Some (to_uintptr (gregs_REG_RIP ctx))
           | None => None
           end |}.
Proof.
  intros H1 H2 H3 H4 H5.
  assert (signalHandler_locals sig info context =
    {| what := "SIGNAL " +:+ CStr.fmt_d sig; detail := None; addr := None |})
    as Hlocals.
  { unfold signalHandler_locals, switch.
    repeat switch_step.
    unfold CStr.snprintf. rewrite CStrFacts.take_all; [done |].
    rewrite CStrFacts.length_app.
    pose proof (CStrFacts.fmt_d_length sig). simpl. lia. }
  split; [done |].
  unfold signalHandler. by rewrite Hlocals.
Qed.

(** C7: a [SIGFPE] with sub-reason [FPE_INTDIV] has the category
    "FLOATING POINT ERROR" and the detail "integer divide by zero", and
    the reason handed to [abort] begins with the prefix followed by
    [FLOATING POINT ERROR (integer divide by zero] (for a prefix that
    leaves that much room in the 256-byte buffer). *)
Theorem fpe_intdiv_report info context :
  si_code info = FPE_INTDIV →
  (String.length REASON_PREFIX ≤ 211)%nat →
  let r := signalHandler_locals SIGFPE info context in
  what r = "FLOATING POINT ERROR"
  ∧ detail r = Some "integer divide by zero"
  ∧ CStr.prefixb
      (REASON_PREFIX +:+ "FLOATING POINT ERROR (integer divide by zero")
      (reason (signalHandler REASON_PREFIX SIGFPE info context)) = true.
Proof.
  intros Hcode Hlen r.
  assert (r = {| what := "FLOATING POINT ERROR";
                 detail := Some "integer divide by zero";
                 addr := Some (to_uintptr (si_addr info)) |}) as Hr.
  { subst r. unfold signalHandler_locals. simpl. by rewrite Hcode. }
  rewrite Hr. split; [done |]. split; [done |].
  unfold signalHandler. fold r. rewrite Hr. simpl.
  unfold formatReason, CStr.snprintf.
  rewrite CStrFacts.take_app by lia.
  rewrite CStrFacts.prefixb_app_l.
  set (room := (256 - 1 - String.length REASON_PREFIX)%nat).
  assert (44 ≤ room)%nat as Hroom by (subst room; lia).
  match goal with
  | |- context [CStr.take room ?text] =>
      change text
        with ("FLOATING POINT ERROR (integer divide by zero"
              +:+ "), address 0x" +:+ CStr.fmt_x (to_uintptr (si_addr info)))
  end.
  rewrite (CStrFacts.take_app room) by (simpl; lia).
  apply CStrFacts.prefixb_refl_app.
Qed.

End ClassifierFacts.

(** C1, counterexample: a [SIGSEGV] eight bytes below the stack pointer is
    classified as a stack overflow, and the hand-off still asks for a stack
    trace. *)
Lemma posix_stack_overflow_requests_trace :
  detail (signalHandler_locals SIGSEGV overflow_info (Some overflow_context))
  = Some "stack overflow"
  ∧ printTrace
      (signalHandler sample_prefix SIGSEGV overflow_info
         (Some overflow_context))
    = true
  ∧ ¬ (∀ sig info context,
         detail (signalHandler_locals sig info context)
         = Some "stack overflow" →
         printTrace (signalHandler sample_prefix sig info context) = false).
Proof.
  split; [vm_compute; reflexivity |]. split; [reflexivity |].
  intros H.
  specialize (H SIGSEGV overflow_info (Some overflow_context)).
  discriminate H. vm_compute. reflexivity.
Qed.

(** Apart from [EXCEPTION_FLT_INEXACT_RESULT], every detail the two fault
classifiers pass to [formatReason] is bare: no leading space and no
parenthesis of its own. *)
Lemma classifier_details_bare :
  (∀ sig info context d,
     detail (signalHandler_locals sig info context) = Some d →
     CStr.bare d = true)
  ∧ (∀ excRec d,
       ExceptionCode excRec ≠ EXCEPTION_FLT_INEXACT_RESULT →
       detail (onWindowsException_locals excRec) = Some d →
       CStr.bare d = true).
Proof.
  split.
  - intros sig info context d.
    unfold signalHandler_locals, switch.
    repeat case_match; simpl; intros [= <-]; reflexivity.
  - intros excRec d Hne.
    apply Z.eqb_neq in Hne.
    unfold onWindowsException_locals, switch. rewrite Hne.
    repeat case_match; simpl; try discriminate;
      intros [= <-]; try reflexivity.
    + by apply (CStrFacts.bare_labelled_number 64 "N" "TSTATUS=").
    + by apply (CStrFacts.bare_labelled_number 64 "e" "xception code = ").
Qed.

(** C8, at the failing input: for [EXCEPTION_FLT_INEXACT_RESULT] the detail
    handed to [formatReason] is " (floating-point inexact result)", with a
    leading space and parentheses of its own, so the reason reads
    [FLOATING POINT ERROR ( (floating-point inexact result))]; the
    neighbouring case [EXCEPTION_FLT_INVALID_OPERATION] and the POSIX case
    [FPE_FLTRES] pass the bare text. *)
Theorem flt_inexact_result_detail :
  detail (onWindowsException_locals
            (windows_record EXCEPTION_FLT_INEXACT_RESULT))
  = Some " (floating-point inexact result)"
  ∧ CStr.bare " (floating-point inexact result)" = false
  ∧ reason (onWindowsException sample_prefix
              (windows_record EXCEPTION_FLT_INEXACT_RESULT))
    = sample_prefix
      +:+ "FLOATING POINT ERROR ( (floating-point inexact result))"
  ∧ detail (onWindowsException_locals
              (windows_record EXCEPTION_FLT_INVALID_OPERATION))
    = Some "floating-point invalid operation"
  ∧ detail (signalHandler_locals SIGFPE inexact_info None)
    = Some "floating-point inexact result".
Proof. repeat split; vm_compute; reflexivity. Qed.

(** ** The [std::terminate] hook *)

Section TerminateFacts.

Context (REASON_PREFIX : string).
Context (demangle : string → string).

Lemma snprintf_fits (size : nat) (text : string) :
  (String.length text ≤ size - 1)%nat → CStr.snprintf size text = text.
Proof. apply CStrFacts.take_all. Qed.

(** C3 (as the code has it): with an exception in flight, [onTerminate]
    hands to [abort] the category "std::terminate()" with a detail, asking
    for a trace outside signal context.  The clauses are probed in order,
    so that a [std::system_error], which the [std::exception] clause would
    accept as well, gives the text
    [std::system_error: "<message>" (<category>:<code>)], any other
    [std::exception] gives [<demangled class>: "<what>"], a C string
    gives [c_string_text] of its text, with "<null>" for a null
    pointer, each cut to the 127 characters the buffer holds, and anything
    else gives "unknown exception".  When the text fits, the detail
    contains the message, the category name and the code (respectively
    the class name and the message, or the thrown text). *)
Theorem onTerminate_classification pl rt (e : thrown) :
  let c := onTerminate REASON_PREFIX demangle pl rt (Some e) in
  let d := onTerminate_detail demangle e in
  c = {| reason := formatReason REASON_PREFIX "std::terminate()" (Some d) None;
         printTrace := true; inSignalHandler := false; faultAddr := None |}
  ∧ match e with
    | ThrownObject exc (Some err) =>
        is_Some (catch_exception demangle e)
        ∧ d = CStr.take 127 (system_error_text err)
        ∧ ((String.length (system_error_text err) ≤ 127)%nat →
           CStr.occursb (code_message err) d = true
           ∧ CStr.occursb (category_name err) d = true
           ∧ CStr.occursb (CStr.fmt_d (code_value err)) d = true)
    | ThrownObject exc None =>
        d = CStr.take 127 (exception_text (demangle (type_name exc)) exc)
        ∧ ((String.length (exception_text (demangle (type_name exc)) exc)
            ≤ 127)%nat →
           CStr.occursb (demangle (type_name exc)) d = true
           ∧ CStr.occursb (what_text exc) d = true)
    | ThrownCharPtr (Some s) =>
        d = CStr.take 127 (c_string_text s)
        ∧ ((String.length (c_string_text s) ≤ 127)%nat →
           CStr.occursb s d = true)
    | ThrownCharPtr None => d = c_string_text "<null>"
    | ThrownOther => d = "unknown exception"
    end.
Proof.
  intros c d. split; [done |].
  destruct e as [exc [err | ] | [s | ] | ]; subst d; try done.
  - split; [done |]. split; [done |]. intros Hfit.
    replace (onTerminate_detail demangle (ThrownObject exc (Some err)))
      with (system_error_text err)
      by (symmetry; apply (CStrFacts.take_all 127); done).
    unfold system_error_text. repeat split; apply CStrFacts.occursb_spec.
    + exists ("std::system_error: " +:+ CStr.dquote). eexists.
      by rewrite CStrFacts.app_assoc.
    + exists ("std::system_error: " +:+ CStr.dquote +:+ code_message err
              +:+ CStr.dquote +:+ " ("). eexists.
      by rewrite !CStrFacts.app_assoc.
    + exists ("std::system_error: " +:+ CStr.dquote +:+ code_message err
              +:+ CStr.dquote +:+ " (" +:+ category_name err +:+ ":").
      eexists. by rewrite !CStrFacts.app_assoc.
  - split; [done |]. intros Hfit.
    replace (onTerminate_detail demangle (ThrownObject exc None))
      with (exception_text (demangle (type_name exc)) exc)
      by (symmetry; apply (CStrFacts.take_all 127); done).
    unfold exception_text. split; apply CStrFacts.occursb_spec.
    + exists EmptyString. eexists. reflexivity.
    + exists (demangle (type_name exc) +:+ ": " +:+ CStr.dquote). eexists.
      by rewrite !CStrFacts.app_assoc.
  - split; [done |]. intros Hfit.
    replace (onTerminate_detail demangle (ThrownCharPtr (Some s)))
      with (c_string_text s)
      by (symmetry; apply (CStrFacts.take_all 127); done).
    unfold c_string_text. apply CStrFacts.occursb_spec.
    exists ("exception (const char*): " +:+ CStr.dquote). eexists.
    by rewrite !CStrFacts.app_assoc.
Qed.

End TerminateFacts.

(** C3, counterexample: a [std::system_error] whose message has 130
    characters fills the 128-byte buffer before the category name and the
    code are reached, so the detail holds neither of them, nor the whole
    message. *)
Lemma long_system_error_message_is_cut :
  CStr.occursb (code_message long_error_code)
    (onTerminate_detail sample_demangle long_system_error) = false
  ∧ CStr.occursb (category_name long_error_code)
      (onTerminate_detail sample_demangle long_system_error) = false
  ∧ CStr.occursb (CStr.fmt_d (code_value long_error_code))
      (onTerminate_detail sample_demangle long_system_error) = false
  ∧ String.length (onTerminate_detail sample_demangle long_system_error)
    = 127%nat.
Proof. repeat split; vm_compute; reflexivity. Qed.

(** ** Installation: [HandlerSetup] *)

Section SetupFacts.

Context (s_ALT_STACK_SIZE : Z).
Context (strerror : Z → string).

(** The test of line 468 in terms of the value of the variable. *)
Lemma disabled_test (opt : option string) :
  match opt with Some v => String.eqb v "1" | None => false end = true
  ↔ opt = Some "1".
Proof.
  destruct opt as [v |]; [| split; discriminate].
  rewrite String.eqb_eq. split; congruence.
Qed.

Lemma setup_disabled pl k p :
  environ p !! OOOPSI_DISABLE_HANDLERS = Some "1" →
  HandlerSetup s_ALT_STACK_SIZE strerror pl k p = (Returned (), p).
Proof.
  intros H. unfold HandlerSetup, mbind, M_bind, getenv.
  unfold OOOPSI_DISABLE_HANDLERS in H. by rewrite H.
Qed.

Lemma setup_enabled pl k p :
  environ p !! OOOPSI_DISABLE_HANDLERS ≠ Some "1" →
  HandlerSetup s_ALT_STACK_SIZE strerror pl k p =
    if s_handlersRegistered p then (Returned (), p)
    else install_handlers s_ALT_STACK_SIZE strerror pl k
           (set_s_handlersRegistered true p).2.
Proof.
  intros H. unfold HandlerSetup, mbind at 1, M_bind at 1, getenv.
  fold OOOPSI_DISABLE_HANDLERS.
  destruct (match environ p !! OOOPSI_DISABLE_HANDLERS with
            | Some v => String.eqb v "1"
            | None => false
            end) eqn:E.
  - apply disabled_test in E. done.
  - unfold mbind at 1, M_bind at 1, get_s_handlersRegistered.
    by destruct (s_handlersRegistered p).
Qed.

Lemma setup_registered pl k p :
  s_handlersRegistered p = true →
  HandlerSetup s_ALT_STACK_SIZE strerror pl k p = (Returned (), p).
Proof.
  intros H.
  destruct (decide (environ p !! OOOPSI_DISABLE_HANDLERS = Some "1"))
    as [Hd | Hd].
  - by apply setup_disabled.
  - rewrite setup_enabled by done. by rewrite H.
Qed.

Lemma setup_installs pl k p :
  environ p !! OOOPSI_DISABLE_HANDLERS ≠ Some "1" →
  s_handlersRegistered p = false →
  accepts_all k →
  HandlerSetup s_ALT_STACK_SIZE strerror pl k p
  = (Returned (), installed s_ALT_STACK_SIZE pl p).
Proof.
  intros Hd Hr [Hss Hsa]. rewrite setup_enabled by done. rewrite Hr.
  unfold install_handlers, mbind, M_bind.
  destruct pl; simpl.
  - unfold sigaltstack. rewrite Hss. simpl.
    unfold catch_fatal_signal, mbind, M_bind, sigaction.
    rewrite !Hsa. simpl.
    unfold installed. simpl. rewrite <- !(assoc_L (++)). reflexivity.
  - unfold signal, installed. simpl.
    rewrite <- !(assoc_L (++)). reflexivity.
Qed.

(** *** What the installation leaves alone *)

Lemma preserves_ret {A B} (f : process → B) (a : A) : preserves f (mret a).
Proof. done. Qed.

Lemma preserves_bind {A A' B} (f : process → B) (m : M A) (g : A → M A') :
  preserves f m → (∀ a, preserves f (g a)) → preserves f (m ≫= g).
Proof.
  intros Hm Hg p. unfold mbind, M_bind.
  specialize (Hm p). destruct (m p) as [[a | c] p1]; simpl in *.
  - by rewrite Hg.
  - done.
Qed.

Lemma preserves_for_each {B C} (f : process → B) (l : list C) body :
  (∀ x, preserves f (body x)) → preserves f (for_each l body).
Proof.
  intros Hb. induction l as [|x l IH]; simpl.
  - apply preserves_ret.
  - apply preserves_bind; [apply Hb | done].
Qed.

(** After the flag is set, nothing in the constructor touches it or the
    environment. *)
Lemma install_handlers_keeps pl k :
  preserves (λ p, (s_handlersRegistered p, environ p))
    (install_handlers s_ALT_STACK_SIZE strerror pl k).
Proof.
  apply preserves_bind; [done |]. intros _.
  destruct pl.
  - apply preserves_bind.
    { intros p. unfold sigaltstack.
      by destruct (sigaltstack_result k _). }
    intros rc. apply preserves_bind.
    { destruct (negb (rc =? 0)); done. }
    intros _. apply preserves_for_each. intros sig.
    apply preserves_bind.
    { intros p. unfold sigaction. by destruct (sigaction_result k _ _). }
    intros rc'. destruct (negb (rc' =? 0)); done.
  - apply preserves_bind; [done |]. intros _. done.
Qed.

Lemma setup_sets_flag pl k p :
  environ p !! OOOPSI_DISABLE_HANDLERS ≠ Some "1" →
  s_handlersRegistered (HandlerSetup s_ALT_STACK_SIZE strerror pl k p).2 = true
  ∧ environ (HandlerSetup s_ALT_STACK_SIZE strerror pl k p).2 = environ p.
Proof.
  intros Hd. rewrite setup_enabled by done.
  destruct (s_handlersRegistered p) eqn:Hr; [done |].
  remember (set_s_handlersRegistered true p).2 as q eqn:Hq.
  pose proof (install_handlers_keeps pl k q) as H.
  injection H as H1 H2. rewrite H1, H2. by subst q.
Qed.

(** *** Failing installation calls *)

#[local] Arguments err : simpl never.

Lemma err_fits {A} name param p :
  (String.length name ≤ 20)%nat →
  (String.length (strerror (errno p)) ≤ 200)%nat →
  @err strerror A name param p
  = (Terminated (setup_failure strerror name param (errno p)), p).
Proof.
  intros Hn He. unfold err, mbind, M_bind, get_errno, abort, setup_failure.
  rewrite snprintf_fits; [done |].
  rewrite !CStrFacts.length_app.
  pose proof (CStrFacts.fmt_d_length param). simpl. lia.
Qed.

Lemma catch_fatal_signal_ok k sig p :
  sigaction_result k sig installed_action = None →
  catch_fatal_signal strerror k sig p
  = (Returned (), (sigaction k sig installed_action p).2)
  ∧ os_calls (sigaction k sig installed_action p).2
    = os_calls p ++ [call_sigaction sig installed_action].
Proof.
  intros Hs. unfold catch_fatal_signal, mbind, M_bind.
  fold installed_action. unfold sigaction. by rewrite Hs.
Qed.

Lemma catch_fatal_signal_fails k sig e p :
  sigaction_result k sig installed_action = Some e →
  (String.length (strerror e) ≤ 200)%nat →
  ∃ p',
    catch_fatal_signal strerror k sig p
    = (Terminated (setup_failure strerror "sigaction" sig e), p')
    ∧ os_calls p' = os_calls p ++ [call_sigaction sig installed_action].
Proof.
  intros Hs He. unfold catch_fatal_signal, mbind, M_bind.
  fold installed_action. unfold sigaction. rewrite Hs.
  cbv beta iota. change (negb (-1 =? 0)) with true. cbv iota.
  rewrite err_fits by (simpl; done || lia).
  eexists. split; [reflexivity | done].
Qed.

Lemma catch_fatal_signals_fail k pre sig post e p :
  Forall (λ s, sigaction_result k s installed_action = None) pre →
  sigaction_result k sig installed_action = Some e →
  (String.length (strerror e) ≤ 200)%nat →
  ∃ p',
    for_each (pre ++ sig :: post) (catch_fatal_signal strerror k) p
    = (Terminated (setup_failure strerror "sigaction" sig e), p')
    ∧ os_calls p' =
        os_calls p
        ++ map (λ s, call_sigaction s installed_action) (pre ++ [sig]).
Proof.
  intros Hpre Hsig He. revert p.
  induction Hpre as [| s pre Hs Hpre IH]; intros p; simpl.
  - unfold mbind, M_bind.
    destruct (catch_fatal_signal_fails k sig e p Hsig He) as (p' & -> & Hc).
    by exists p'.
  - unfold mbind, M_bind.
    destruct (catch_fatal_signal_ok k s p Hs) as [-> Hc].
    destruct (IH (sigaction k s installed_action p).2) as (p' & -> & Hcalls).
    exists p'. split; [done |].
    rewrite Hcalls, Hc. by rewrite <- (assoc_L (++)).
Qed.

Lemma catch_fatal_signal_aborts k sig e p :
  sigaction_result k sig installed_action = Some e →
  ∃ c p', catch_fatal_signal strerror k sig p = (Terminated c, p').
Proof.
  intros Hs. unfold catch_fatal_signal, mbind, M_bind.
  fold installed_action. unfold sigaction. rewrite Hs.
  cbv beta iota. change (negb (-1 =? 0)) with true. cbv iota.
  by eexists _, _.
Qed.

Lemma catch_fatal_signals_return k l p p' :
  for_each l (catch_fatal_signal strerror k) p = (Returned (), p') →
  Forall (λ s, sigaction_result k s installed_action = None) l.
Proof.
  revert p. induction l as [| s l IH]; intros p H; [constructor |].
  simpl in H. unfold mbind, M_bind in H.
  destruct (sigaction_result k s installed_action) as [e |] eqn:Hs.
  - destruct (catch_fatal_signal_aborts k s e p Hs) as (c & q & Hq).
    rewrite Hq in H. discriminate.
  - destruct (catch_fatal_signal_ok k s p Hs) as [Hq _].
    rewrite Hq in H. constructor; [done | by eapply IH].
Qed.

(** The POSIX installation, call by call. *)
Lemma install_posix_steps k p :
  install_handlers s_ALT_STACK_SIZE strerror Posix k p =
    let q :=
      (sigaltstack k (installed_stack s_ALT_STACK_SIZE)
         (set_terminate fn_onTerminate p).2).2 in
    match sigaltstack_result k (installed_stack s_ALT_STACK_SIZE) with
    | Some e => err strerror "sigaltstack" (to_int s_ALT_STACK_SIZE) q
    | None =>
        for_each [SIGABRT; SIGSEGV; SIGBUS; SIGILL; SIGFPE]
          (catch_fatal_signal strerror k) q
    end.
Proof.
  unfold install_handlers, mbind, M_bind, set_terminate.
  cbv beta iota. unfold sigaltstack.
  fold (installed_stack s_ALT_STACK_SIZE).
  by destruct (sigaltstack_result k _).
Qed.

Lemma setup_failure_contains name param e :
  let text := reason (setup_failure strerror name param e) in
  CStr.occursb name text = true
  ∧ CStr.occursb (CStr.fmt_d param) text = true
  ∧ CStr.occursb (strerror e) text = true.
Proof.
  simpl. repeat split; apply CStrFacts.occursb_spec.
  - exists EmptyString. by eexists.
  - exists (name +:+ "("). eexists. by rewrite !CStrFacts.app_assoc.
  - exists (name +:+ "(" +:+ CStr.fmt_d param +:+ ") failed: ").
    exists EmptyString.
    by rewrite !CStrFacts.app_assoc, CStrFacts.app_empty_r.
Qed.

(** C6: on the POSIX backend, when [sigaltstack] or one of the
    [sigaction] calls fails, the constructor ends in [abort] with the
    reason [<call>(<parameter>) failed: <strerror(errno)>], which contains
    the name of the call, its parameter and the error text (for an error
    text of at most 200 characters, so that the reason fits its buffer);
    no installation call follows the failing one, and the constructor
    returns normally only when every call succeeded. *)
Theorem installation_failure_aborts k p :
  environ p !! OOOPSI_DISABLE_HANDLERS ≠ Some "1" →
  s_handlersRegistered p = false →
  (∀ e,
     sigaltstack_result k (installed_stack s_ALT_STACK_SIZE) = Some e →
     (String.length (strerror e) ≤ 200)%nat →
     ∃ p',
       HandlerSetup s_ALT_STACK_SIZE strerror Posix k p
       = (Terminated
            (setup_failure strerror "sigaltstack" (to_int s_ALT_STACK_SIZE) e), p')
       ∧ os_calls p' =
           os_calls p
           ++ [call_set_terminate fn_onTerminate;
               call_sigaltstack (installed_stack s_ALT_STACK_SIZE)])
  ∧ (∀ pre sig post e,
       sigaltstack_result k (installed_stack s_ALT_STACK_SIZE) = None →
       [SIGABRT; SIGSEGV; SIGBUS; SIGILL; SIGFPE] = pre ++ sig :: post →
       Forall (λ s, sigaction_result k s installed_action = None) pre →
       sigaction_result k sig installed_action = Some e →
       (String.length (strerror e) ≤ 200)%nat →
       ∃ p',
         HandlerSetup s_ALT_STACK_SIZE strerror Posix k p
         = (Terminated (setup_failure strerror "sigaction" sig e), p')
         ∧ os_calls p' =
             os_calls p
             ++ [call_set_terminate fn_onTerminate;
                 call_sigaltstack (installed_stack s_ALT_STACK_SIZE)]
             ++ map (λ s, call_sigaction s installed_action) (pre ++ [sig]))
  ∧ (∀ name param e,
       let text := reason (setup_failure strerror name param e) in
       CStr.occursb name text = true
       ∧ CStr.occursb (CStr.fmt_d param) text = true
       ∧ CStr.occursb (strerror e) text = true)
  ∧ (∀ p',
       HandlerSetup s_ALT_STACK_SIZE strerror Posix k p = (Returned (), p') →
       sigaltstack_result k (installed_stack s_ALT_STACK_SIZE) = None
       ∧ Forall (λ s, sigaction_result k s installed_action = None)
           [SIGABRT; SIGSEGV; SIGBUS; SIGILL; SIGFPE]).
Proof.
  intros Hd Hr. rewrite setup_enabled by done. rewrite Hr.
  rewrite install_posix_steps. cbv zeta.
  set (q := (sigaltstack k (installed_stack s_ALT_STACK_SIZE)
               (set_terminate fn_onTerminate
                  (set_s_handlersRegistered true p).2).2).2).
  assert (os_calls q =
            os_calls p
            ++ [call_set_terminate fn_onTerminate;
                call_sigaltstack (installed_stack s_ALT_STACK_SIZE)])
    as Hq.
  { subst q. unfold sigaltstack.
    destruct (sigaltstack_result k _); simpl;
      by rewrite <- (assoc_L (++)). }
  repeat split; try apply setup_failure_contains.
  - intros e Hss He. rewrite Hss.
    assert (errno q = e) as Hqe.
    { subst q. unfold sigaltstack. by rewrite Hss. }
    rewrite err_fits by (simpl; rewrite ?Hqe; done || lia).
    rewrite Hqe. by exists q.
  - intros pre sig post e Hss Hl Hpre Hsig He. rewrite Hss, Hl.
    destruct (catch_fatal_signals_fail k pre sig post e q Hpre Hsig He)
      as (p' & -> & Hcalls).
    exists p'. split; [done |]. rewrite Hcalls, Hq.
    by rewrite <- !(assoc_L (++)).
  - revert H. by destruct (sigaltstack_result k _).
  - revert H. destruct (sigaltstack_result k _); [done |].
    apply catch_fatal_signals_return.
Qed.

(** C4: when [OOOPSI_DISABLE_HANDLERS] is exactly "1" the constructor
    returns at once, having made no installation call and changed nothing;
    for any other value, or without the variable, a first construction sets
    the registration flag and runs the installation proper, which on an
    operating system that accepts the calls is the complete installation
    (terminate hook, then the platform's handlers). *)
Theorem disable_variable_gates_installation pl k p :
  (environ p !! OOOPSI_DISABLE_HANDLERS = Some "1" →
   HandlerSetup s_ALT_STACK_SIZE strerror pl k p = (Returned (), p))
  ∧ (environ p !! OOOPSI_DISABLE_HANDLERS ≠ Some "1" →
     s_handlersRegistered p = false →
     HandlerSetup s_ALT_STACK_SIZE strerror pl k p
     = install_handlers s_ALT_STACK_SIZE strerror pl k
         (set_s_handlersRegistered true p).2)
  ∧ (environ p !! OOOPSI_DISABLE_HANDLERS ≠ Some "1" →
     s_handlersRegistered p = false →
     accepts_all k →
     HandlerSetup s_ALT_STACK_SIZE strerror pl k p
     = (Returned (), installed s_ALT_STACK_SIZE pl p)
     ∧ os_calls (installed s_ALT_STACK_SIZE pl p)
       = os_calls p ++ installation_calls s_ALT_STACK_SIZE pl).
Proof.
  split; [apply setup_disabled |]. split.
  - intros Hd Hr. rewrite setup_enabled by done. by rewrite Hr.
  - intros Hd Hr Hk. split; [by apply setup_installs | done].
Qed.

(** C5: a construction that finds the registration flag set returns
    without any installation call and leaves the process state as it was;
    hence constructing twice is the same as constructing once. *)
Theorem construction_idempotent pl k k' p :
  (s_handlersRegistered p = true →
   HandlerSetup s_ALT_STACK_SIZE strerror pl k p = (Returned (), p))
  ∧ (HandlerSetup s_ALT_STACK_SIZE strerror pl k;;
     HandlerSetup s_ALT_STACK_SIZE strerror pl k') p
    = HandlerSetup s_ALT_STACK_SIZE strerror pl k p.
Proof.
  split; [apply setup_registered |].
  unfold mbind, M_bind.
  destruct (decide (environ p !! OOOPSI_DISABLE_HANDLERS = Some "1"))
    as [Hd | Hd].
  - rewrite (setup_disabled pl k p Hd). by apply setup_disabled.
  - destruct (setup_sets_flag pl k p Hd) as [Hflag _].
    destruct (HandlerSetup s_ALT_STACK_SIZE strerror pl k p)
      as [[[] | c] p1]; [| done].
    by apply setup_registered.
Qed.

(** C10: a construction disabled by [OOOPSI_DISABLE_HANDLERS=1] changes no
    process-wide state, the registration flag included; so a later
    construction, made after the variable has been changed to something
    else, still performs the complete installation. *)
Theorem disabled_construction_leaves_flag_unset pl k k' p env' :
  environ p !! OOOPSI_DISABLE_HANDLERS = Some "1" →
  HandlerSetup s_ALT_STACK_SIZE strerror pl k p = (Returned (), p)
  ∧ s_handlersRegistered (HandlerSetup s_ALT_STACK_SIZE strerror pl k p).2
    = s_handlersRegistered p
  ∧ (s_handlersRegistered p = false →
     env' !! OOOPSI_DISABLE_HANDLERS ≠ Some "1" →
     accepts_all k' →
     HandlerSetup s_ALT_STACK_SIZE strerror pl k'
       (with_environ env' (HandlerSetup s_ALT_STACK_SIZE strerror pl k p).2)
     = (Returned (),
        installed s_ALT_STACK_SIZE pl (with_environ env' p))).
Proof.
  intros Hd. rewrite (setup_disabled pl k p Hd).
  split; [done |]. split; [done |].
  intros Hr Henv Hk. by apply setup_installs.
Qed.

End SetupFacts.

(** ** The theorems at work on the sample environment *)

Lemma segv_stack_overflow_heuristic_witness :
  si_code overflow_info = SEGV_MAPERR
  ∧ (detail (signalHandler_locals SIGSEGV overflow_info (Some overflow_context))
       = Some "stack overflow"
     ↔ to_uintptr (si_addr overflow_info)
         < to_uintptr (gregs_REG_RSP overflow_context)
       ∧ to_uintptr (gregs_REG_RSP overflow_context)
           - to_uintptr (si_addr overflow_info) < 1024).
Proof.
  split; [reflexivity |].
  apply (proj1 segv_stack_overflow_heuristic overflow_info overflow_context).
  reflexivity.
Defined.

Lemma unregistered_signal_reported_witness :
  (15 ≠ SIGABRT ∧ 15 ≠ SIGSEGV ∧ 15 ≠ SIGBUS ∧ 15 ≠ SIGILL ∧ 15 ≠ SIGFPE)
  ∧ signalHandler_locals 15 intdiv_info None =
      {| what := "SIGNAL 15"; detail := None; addr := None |}.
Proof.
  split; [repeat split; discriminate |].
  apply (unregistered_signal_reported sample_prefix 15 intdiv_info None);
    discriminate.
Defined.

Lemma fpe_intdiv_report_witness :
  (si_code intdiv_info = FPE_INTDIV
   ∧ (String.length sample_prefix ≤ 211)%nat)
  ∧ CStr.prefixb
      "!!! TERMINATING DUE TO FLOATING POINT ERROR (integer divide by zero"
      (reason (signalHandler sample_prefix SIGFPE intdiv_info None)) = true.
Proof.
  assert (String.length sample_prefix ≤ 211)%nat as Hlen
    by (apply Nat.leb_le; vm_compute; reflexivity).
  split; [split; [reflexivity | exact Hlen] |].
  apply (fpe_intdiv_report sample_prefix intdiv_info None);
    [reflexivity | exact Hlen].
Defined.

Lemma onTerminate_classification_witness :
  (String.length
     (system_error_text
        {| code_message := "Broken pipe"; category_name := "generic";
           code_value := 32 |}) ≤ 127)%nat
  ∧ CStr.occursb "Broken pipe" (onTerminate_detail sample_demangle broken_pipe)
    = true
  ∧ CStr.occursb "generic" (onTerminate_detail sample_demangle broken_pipe)
    = true
  ∧ CStr.occursb "32" (onTerminate_detail sample_demangle broken_pipe) = true.
Proof.
  assert (String.length
            (system_error_text
               {| code_message := "Broken pipe"; category_name := "generic";
                  code_value := 32 |}) ≤ 127)%nat as Hfit
    by (apply Nat.leb_le; vm_compute; reflexivity).
  split; [exact Hfit |].
  apply (proj2 (proj2 (proj2 (onTerminate_classification sample_prefix
                                sample_demangle Posix no_runtime
                                broken_pipe)))).
  exact Hfit.
Defined.

Lemma kernel_ok_accepts_all : accepts_all kernel_ok.
Proof. split; intros; reflexivity. Defined.

Lemma disable_variable_gates_installation_witness :
  (environ (fresh_process disabling_environ) !! OOOPSI_DISABLE_HANDLERS
     = Some "1"
   ∧ HandlerSetup 65536 sample_strerror Posix kernel_ok
       (fresh_process disabling_environ)
     = (Returned (), fresh_process disabling_environ))
  ∧ ((environ (fresh_process ∅) !! OOOPSI_DISABLE_HANDLERS ≠ Some "1"
      ∧ s_handlersRegistered (fresh_process ∅) = false
      ∧ accepts_all kernel_ok)
     ∧ os_calls (HandlerSetup 65536 sample_strerror Posix kernel_ok
                   (fresh_process ∅)).2
       = installation_calls 65536 Posix).
Proof.
  assert (environ (fresh_process disabling_environ) !! OOOPSI_DISABLE_HANDLERS
          = Some "1") as Hon by (vm_compute; reflexivity).
  assert (environ (fresh_process ∅) !! OOOPSI_DISABLE_HANDLERS ≠ Some "1")
    as Hoff by (vm_compute; discriminate).
  split.
  - split; [exact Hon |].
    exact (proj1 (disable_variable_gates_installation 65536 sample_strerror
                    Posix kernel_ok (fresh_process disabling_environ)) Hon).
  - split; [split; [exact Hoff | split; [reflexivity |
                                        exact kernel_ok_accepts_all]] |].
    destruct (proj2 (proj2 (disable_variable_gates_installation 65536
                              sample_strerror Posix kernel_ok
                              (fresh_process ∅)))
                Hoff eq_refl kernel_ok_accepts_all) as [Hrun Hcalls].
    rewrite Hrun. exact Hcalls.
Defined.

Lemma construction_idempotent_witness :
  s_handlersRegistered (installed 65536 Posix (fresh_process ∅)) = true
  ∧ HandlerSetup 65536 sample_strerror Posix kernel_rejecting_SIGBUS
      (installed 65536 Posix (fresh_process ∅))
    = (Returned (), installed 65536 Posix (fresh_process ∅)).
Proof.
  split; [reflexivity |].
  apply (proj1 (construction_idempotent 65536 sample_strerror Posix
                  kernel_rejecting_SIGBUS kernel_ok
                  (installed 65536 Posix (fresh_process ∅)))).
  reflexivity.
Defined.

Lemma disabled_construction_leaves_flag_unset_witness :
  (environ (fresh_process disabling_environ) !! OOOPSI_DISABLE_HANDLERS
     = Some "1"
   ∧ s_handlersRegistered (fresh_process disabling_environ) = false
   ∧ (∅ : gmap string string) !! OOOPSI_DISABLE_HANDLERS ≠ Some "1"
   ∧ accepts_all kernel_ok)
  ∧ HandlerSetup 65536 sample_strerror Win32 kernel_ok
      (with_environ ∅
         (HandlerSetup 65536 sample_strerror Win32 kernel_ok
            (fresh_process disabling_environ)).2)
    = (Returned (),
       installed 65536 Win32
         (with_environ ∅ (fresh_process disabling_environ))).
Proof.
  assert (environ (fresh_process disabling_environ) !! OOOPSI_DISABLE_HANDLERS
          = Some "1") as Hon by (vm_compute; reflexivity).
  assert ((∅ : gmap string string) !! OOOPSI_DISABLE_HANDLERS ≠ Some "1")
    as Hoff by (vm_compute; discriminate).
  split; [split; [exact Hon | split; [reflexivity | split; [exact Hoff |
            exact kernel_ok_accepts_all]]] |].
  apply (disabled_construction_leaves_flag_unset 65536 sample_strerror Win32
           kernel_ok kernel_ok (fresh_process disabling_environ) ∅ Hon);
    [reflexivity | exact Hoff | exact kernel_ok_accepts_all].
Defined.

Lemma installation_failure_aborts_witness :
  (environ (fresh_process ∅) !! OOOPSI_DISABLE_HANDLERS ≠ Some "1"
   ∧ s_handlersRegistered (fresh_process ∅) = false
   ∧ sigaltstack_result kernel_rejecting_SIGBUS (installed_stack 65536) = None
   ∧ [SIGABRT; SIGSEGV; SIGBUS; SIGILL; SIGFPE]
     = [SIGABRT; SIGSEGV] ++ SIGBUS :: [SIGILL; SIGFPE]
   ∧ Forall
       (λ s, sigaction_result kernel_rejecting_SIGBUS s installed_action = None)
       [SIGABRT; SIGSEGV]
   ∧ sigaction_result kernel_rejecting_SIGBUS SIGBUS installed_action = Some 22
   ∧ (String.length (sample_strerror 22) ≤ 200)%nat)
  ∧ ∃ p',
      HandlerSetup 65536 sample_strerror Posix kernel_rejecting_SIGBUS
        (fresh_process ∅)
      = (Terminated
           {| reason := "sigaction(7) failed: Invalid argument";
              printTrace := true; inSignalHandler := false;
              faultAddr := None |}, p')
      ∧ os_calls p' =
          [ call_set_terminate fn_onTerminate;
            call_sigaltstack (installed_stack 65536);
            call_sigaction SIGABRT installed_action;
            call_sigaction SIGSEGV installed_action;
            call_sigaction SIGBUS installed_action ].
Proof.
  assert (environ (fresh_process ∅) !! OOOPSI_DISABLE_HANDLERS ≠ Some "1")
    as Hoff by (vm_compute; discriminate).
  assert (Forall
            (λ s, sigaction_result kernel_rejecting_SIGBUS s installed_action
                  = None) [SIGABRT; SIGSEGV]) as Hpre
    by (repeat constructor).
  assert (String.length (sample_strerror 22) ≤ 200)%nat as Hlen
    by (apply Nat.leb_le; vm_compute; reflexivity).
  split.
  { split; [exact Hoff |]. split; [reflexivity |]. split; [reflexivity |].
    split; [reflexivity |]. split; [exact Hpre |]. split; [reflexivity |].
    exact Hlen. }
  exact (proj1 (proj2 (installation_failure_aborts 65536 sample_strerror
                         kernel_rejecting_SIGBUS (fresh_process ∅)
                         Hoff eq_refl))
           [SIGABRT; SIGSEGV] SIGBUS [SIGILL; SIGFPE] 22
           eq_refl eq_refl Hpre eq_refl Hlen).
Defined.

(** ** More on the POSIX classifier *)

(** Turn the outcome of a comparison into the equation or the
    disequation it decides. *)
Ltac eqb_to_prop :=
  repeat match goal with
    | H : (_ =? _) = true |- _ => rewrite Z.eqb_eq in H
    | H : (_ =? _) = false |- _ => rewrite Z.eqb_neq in H
    end.

(** Close a goal in which one scrutinee is equal to two different
    labels. *)
Ltac clashing_labels :=
  match goal with
  | H : ?x = ?a, H' : ?x = ?b |- _ =>
      exfalso; rewrite H in H'; cbv in H'; discriminate H'
  end.

Lemma signalHandler_what_cases sig info context :
  what (signalHandler_locals sig info context) =
    switch sig
      [ (SIGABRT, "std::abort()"); (SIGSEGV, "SEGMENTATION FAULT");
        (SIGBUS, "BUS ERROR"); (SIGILL, "ILLEGAL INSTRUCTION");
        (SIGFPE, "FLOATING POINT ERROR") ]
      (CStr.snprintf 64 ("SIGNAL " +:+ CStr.fmt_d sig)).
Proof. unfold signalHandler_locals, switch. by repeat case_match. Qed.

(** X1: the category is decided by the signal number alone (neither the
    [siginfo_t] nor the register context changes it), it is one of the five
    fixed texts for the registered signals, and it is never left empty. *)
Theorem signal_category sig info context info' context' :
  what (signalHandler_locals sig info context)
  = what (signalHandler_locals sig info' context')
  ∧ what (signalHandler_locals sig info context) ≠ EmptyString
  ∧ what (signalHandler_locals SIGABRT info context) = "std::abort()"
  ∧ what (signalHandler_locals SIGSEGV info context) = "SEGMENTATION FAULT"
  ∧ what (signalHandler_locals SIGBUS info context) = "BUS ERROR"
  ∧ what (signalHandler_locals SIGILL info context) = "ILLEGAL INSTRUCTION"
  ∧ what (signalHandler_locals SIGFPE info context) = "FLOATING POINT ERROR".
Proof.
  split; [by rewrite !signalHandler_what_cases |].
  split; [| by rewrite !signalHandler_what_cases].
  rewrite signalHandler_what_cases. unfold switch.
  repeat case_match; done.
Qed.

(** X2: the report carries a fault address exactly for [SIGSEGV], [SIGBUS],
    [SIGILL] and [SIGFPE], and then it is [si_addr]; [SIGABRT] and
    unregistered signals carry none, whatever [si_addr] holds. *)
Theorem fault_address_reported sig info context :
  (sig = SIGSEGV ∨ sig = SIGBUS ∨ sig = SIGILL ∨ sig = SIGFPE →
   addr (signalHandler_locals sig info context)
   = Some (to_uintptr (si_addr info)))
  ∧ (sig ≠ SIGSEGV → sig ≠ SIGBUS → sig ≠ SIGILL → sig ≠ SIGFPE →
     addr (signalHandler_locals sig info context) = None).
Proof.
  unfold signalHandler_locals, switch. split.
  - intros [-> | [-> | [-> | ->]]]; reflexivity.
  - intros H1 H2 H3 H4. repeat case_match; eqb_to_prop; done.
Qed.

(** X3: a detail is present exactly when the sub-reason code is one of the
    [case] labels of the signal's inner switch; an unknown code, [SIGABRT]
    and an unregistered signal give no detail. *)
Theorem detail_present_iff_known_code sig info context :
  detail (signalHandler_locals sig info context) = None
  ↔ si_code info ∉ detailed_si_codes sig.
Proof.
  unfold signalHandler_locals, detailed_si_codes, switch.
  repeat case_match; eqb_to_prop; try clashing_labels; simpl; split;
    try discriminate; try done.
  all: try (intros _; rewrite ?not_elem_of_cons; repeat split;
            (done || apply not_elem_of_nil)).
  all: intros Hn; exfalso; apply Hn; rewrite ?elem_of_cons; tauto.
Qed.

(** X4: the register context is consulted for [SIGSEGV] with
    [SEGV_MAPERR] only.  Without a context such a fault is always "address
    not mapped to object"; for any other signal or sub-reason the locals do
    not depend on the context; and the heuristic never changes the category
    or the reported address. *)
Theorem context_only_for_maperr sig info context context' :
  (si_code info = SEGV_MAPERR →
   detail (signalHandler_locals SIGSEGV info None)
   = Some "address not mapped to object")
  ∧ (sig ≠ SIGSEGV ∨ si_code info ≠ SEGV_MAPERR →
     signalHandler_locals sig info context
     = signalHandler_locals sig info context')
  ∧ what (signalHandler_locals sig info context)
    = what (signalHandler_locals sig info context')
  ∧ addr (signalHandler_locals sig info context)
    = addr (signalHandler_locals sig info context').
Proof.
  split; [| split; [| split]].
  - intros H. unfold signalHandler_locals. simpl. by rewrite H.
  - intros H. unfold signalHandler_locals, switch.
    repeat case_match; eqb_to_prop; try done; destruct H; done.
  - by rewrite !signalHandler_what_cases.
  - unfold signalHandler_locals, switch. by repeat case_match.
Qed.

(** ** More on the structured-exception classifier *)

(** Step over a [case] label the hypotheses exclude. *)
Ltac switch_miss :=
  match goal with
  | |- context [?x =? ?y] =>
      destruct (Z.eqb_spec x y); [contradiction |]
  end.

Lemma fmt_lu32_length (n : Z) : (String.length (CStr.fmt_lu32 n) ≤ 10)%nat.
Proof.
  unfold CStr.fmt_lu32.
  pose proof (CStrFacts.utoa_length 10 10 (n mod 2 ^ 32) EmptyString).
  simpl in *. lia.
Qed.

(** [%lu] prints the decimal numeral of a 32-bit value. *)
Lemma fmt_lu32_roundtrip (n : Z) :
  0 ≤ n < 2 ^ 32 → CStr.atou 10 (CStr.fmt_lu32 n) 0 = n.
Proof.
  intros Hn. unfold CStr.fmt_lu32. rewrite Z.mod_small by done.
  destruct (CStrFacts.utoa_digits 10 9 n EmptyString)
    as (d & ds & -> & Hd & Hds); [lia | simpl; lia |].
  rewrite CStrFacts.app_empty_r, Hds. lia.
Qed.

(** X5: an exception code without a [case] of its own is reported as
    "Unrecognized Exception" with the detail [exception code = <n>], where
    [<n>] is the whole decimal numeral of the code (the 64-byte buffer never
    cuts it, and reading it back gives the code); no data address is
    reported, and the hand-off asks for a trace from the exception
    address. *)
Theorem unrecognised_exception_code (REASON_PREFIX : string) excRec :
  ExceptionCode excRec ∉ recognised_exception_codes →
  0 ≤ ExceptionCode excRec < 2 ^ 32 →
  onWindowsException_locals excRec
  = {| what := "Unrecognized Exception";
       detail :=
         Some ("exception code = " +:+ CStr.fmt_lu32 (ExceptionCode excRec));
       addr := None |}
  ∧ CStr.atou 10 (CStr.fmt_lu32 (ExceptionCode excRec)) 0
    = ExceptionCode excRec
  ∧ printTrace (onWindowsException REASON_PREFIX excRec) = true
  ∧ faultAddr (onWindowsException REASON_PREFIX excRec)
    = Some (ExceptionAddress excRec).
Proof.
  intros Hcode Hrange. unfold recognised_exception_codes in Hcode.
  rewrite !not_elem_of_cons in Hcode. destruct_and!.
  split; [| split; [by apply fmt_lu32_roundtrip |]].
  - unfold onWindowsException_locals, switch. repeat switch_miss.
    unfold CStr.snprintf. rewrite CStrFacts.take_all; [done |].
    rewrite CStrFacts.length_app.
    pose proof (fmt_lu32_length (ExceptionCode excRec)) as Hlen.
    clear - Hlen. simpl. lia.
  - unfold onWindowsException. by repeat switch_miss.
Qed.

(** X6: the structured-exception report names a data address in two cases
    only: an access violation with at least two parameters and a page error
    with at least three; it is then the second word of
    [ExceptionInformation].  With fewer parameters, and for every other
    code, no address is reported. *)
Theorem exception_data_address excRec :
  addr (onWindowsException_locals excRec)
  = if ((ExceptionCode excRec =? EXCEPTION_ACCESS_VIOLATION)
        && (2 <=? NumberParameters excRec))
       || ((ExceptionCode excRec =? EXCEPTION_IN_PAGE_ERROR)
           && (3 <=? NumberParameters excRec))
    then Some (default 0 (ExceptionInformation excRec !! 1%nat))
    else None.
Proof.
  unfold onWindowsException_locals.
  destruct (Z.eqb_spec (ExceptionCode excRec) EXCEPTION_ACCESS_VIOLATION)
    as [Hav | Hav].
  { rewrite Hav. simpl. by destruct (2 <=? NumberParameters excRec). }
  destruct (Z.eqb_spec (ExceptionCode excRec) EXCEPTION_IN_PAGE_ERROR)
    as [Hpe | Hpe].
  { rewrite Hpe. simpl. by destruct (3 <=? NumberParameters excRec). }
  unfold switch. repeat case_match; eqb_to_prop; done.
Qed.

(** ** More on the [std::terminate] hook *)

Section TerminateExtras.

Context (REASON_PREFIX : string).
Context (demangle : string → string).

Lemma shortly_after_test (sym f : Z) :
  0 ≤ sym < 2 ^ 64 → 0 ≤ f < 2 ^ 64 →
  (sym <=? f) && (to_uintptr (f - sym) <=? 64) = true ↔ shortly_after sym f.
Proof.
  intros Hs Hf. unfold shortly_after.
  rewrite andb_true_iff, Z.leb_le. split.
  - intros [Hle Hd]. split; [done |].
    unfold to_uintptr in Hd. rewrite Z.mod_small in Hd by lia.
    by apply Z.leb_le.
  - intros [Hle Hd]. split; [done |].
    unfold to_uintptr. rewrite Z.mod_small by lia. by apply Z.leb_le.
Qed.

Lemma scan_callers_two (pv dv f : Z) (pm dm : string) :
  0 ≤ pv < 2 ^ 64 → 0 ≤ dv < 2 ^ 64 → 0 ≤ f < 2 ^ 64 →
  (shortly_after pv f →
   scan_callers REASON_PREFIX f [(pv, pm); (dv, dm)]
   = Some (slot_call REASON_PREFIX pm f))
  ∧ (¬ shortly_after pv f → shortly_after dv f →
     scan_callers REASON_PREFIX f [(pv, pm); (dv, dm)]
     = Some (slot_call REASON_PREFIX dm f))
  ∧ (¬ shortly_after pv f → ¬ shortly_after dv f →
     scan_callers REASON_PREFIX f [(pv, pm); (dv, dm)] = None).
Proof.
  intros Hpv Hdv Hf. simpl.
  pose proof (shortly_after_test pv f Hpv Hf) as Hp.
  pose proof (shortly_after_test dv f Hdv Hf) as Hd.
  destruct ((pv <=? f) && (to_uintptr (f - pv) <=? 64));
    destruct ((dv <=? f) && (to_uintptr (f - dv) <=? 64));
    repeat split; intros; try done;
    try (exfalso; intuition congruence).
Qed.

Lemma scan_frames_miss (pv dv : Z) (pm dm : string) frames :
  0 ≤ pv < 2 ^ 64 → 0 ≤ dv < 2 ^ 64 →
  no_slot_frame pv dv frames →
  scan_frames REASON_PREFIX frames [(pv, pm); (dv, dm)] = None.
Proof.
  intros Hpv Hdv Hmiss.
  induction Hmiss as [| f frames [Hp Hd] _ IH]; [done |].
  cbn [scan_frames].
  destruct (scan_callers_two pv dv (to_uintptr f) pm dm Hpv Hdv
              (to_uintptr_range f)) as (_ & _ & ->); done.
Qed.

Lemma scan_frames_hit (pv dv : Z) (pm dm : string) pre f post :
  0 ≤ pv < 2 ^ 64 → 0 ≤ dv < 2 ^ 64 →
  no_slot_frame pv dv pre →
  (shortly_after pv (to_uintptr f) →
   scan_frames REASON_PREFIX (pre ++ f :: post) [(pv, pm); (dv, dm)]
   = Some (slot_call REASON_PREFIX pm (to_uintptr f)))
  ∧ (¬ shortly_after pv (to_uintptr f) → shortly_after dv (to_uintptr f) →
     scan_frames REASON_PREFIX (pre ++ f :: post) [(pv, pm); (dv, dm)]
     = Some (slot_call REASON_PREFIX dm (to_uintptr f))).
Proof.
  intros Hpv Hdv Hmiss.
  destruct (scan_callers_two pv dv (to_uintptr f) pm dm Hpv Hdv
              (to_uintptr_range f)) as (Hp & Hd & _).
  induction Hmiss as [| g pre [Hgp Hgd] _ IH].
  - cbn [app scan_frames]. split.
    + intros H. by rewrite (Hp H).
    + intros H1 H2. by rewrite (Hd H1 H2).
  - cbn [app scan_frames].
    destruct (scan_callers_two pv dv (to_uintptr g) pm dm Hpv Hdv
                (to_uintptr_range g)) as (_ & _ & ->); done.
Qed.

(** X7: whatever the platform, the run-time image and the exception in
    flight, [onTerminate] asks [abort] for a stack trace and never claims to
    run in signal context. *)
Theorem onTerminate_flags pl rt current :
  printTrace (onTerminate REASON_PREFIX demangle pl rt current) = true
  ∧ inSignalHandler (onTerminate REASON_PREFIX demangle pl rt current)
    = false.
Proof.
  assert (∀ f callers c,
            scan_callers REASON_PREFIX f callers = Some c →
            printTrace c = true ∧ inSignalHandler c = false) as Hcallers.
  { intros f callers c. induction callers as [| [sym msg] callers IH];
      [done |]. simpl. case_match; [by intros [= <-] | done]. }
  assert (∀ frames callers c,
            scan_frames REASON_PREFIX frames callers = Some c →
            printTrace c = true ∧ inSignalHandler c = false) as Hframes.
  { intros frames callers c. induction frames as [| f frames IH];
      [done |]. simpl.
    destruct (scan_callers _ _ _) as [c' |] eqn:E; [| done].
    intros [= <-]. by eapply Hcallers. }
  unfold onTerminate.
  destruct current as [e |]; [done |].
  destruct pl; [done |].
  destruct (libstdcpp rt) as [gpa |]; [| done].
  destruct (scan_frames _ _ _) as [c |] eqn:E; [| done].
  by eapply Hframes.
Qed.

(** X8: without an exception in flight, [onTerminate] falls back to the
    plain "std::terminate()" report with no detail and no address: always on
    POSIX, and on Windows when [libstdc++-6.dll] is not loaded or when no
    captured frame (none at all included) lies within 64 bytes after
    [__cxa_pure_virtual] or [__cxa_deleted_virtual]. *)
Theorem terminate_falls_back rt :
  onTerminate REASON_PREFIX demangle Posix rt None
  = terminate_fallback REASON_PREFIX
  ∧ (libstdcpp rt = None →
     onTerminate REASON_PREFIX demangle Win32 rt None
     = terminate_fallback REASON_PREFIX)
  ∧ (∀ GetProcAddress,
       libstdcpp rt = Some GetProcAddress →
       no_slot_frame (to_uintptr (GetProcAddress "__cxa_pure_virtual"))
         (to_uintptr (GetProcAddress "__cxa_deleted_virtual"))
         (stackFrames rt) →
       onTerminate REASON_PREFIX demangle Win32 rt None
       = terminate_fallback REASON_PREFIX).
Proof.
  split; [done |]. split.
  - intros H. unfold onTerminate. by rewrite H.
  - intros gpa H Hmiss. unfold onTerminate. rewrite H.
    by rewrite scan_frames_miss by (done || apply to_uintptr_range).
Qed.

(** X9: on Windows, without an exception in flight, the first captured
    frame that lies within 64 bytes after one of the two entry points
    decides the report: "PURE VIRTUAL FUNCTION CALL" when it is
    [__cxa_pure_virtual] (tried first), otherwise "DELETED VIRTUAL FUNCTION
    CALL"; that frame is the address of the report and of the trace.  Later
    frames are not looked at. *)
Theorem terminate_scan_first_match rt GetProcAddress pre f post :
  libstdcpp rt = Some GetProcAddress →
  stackFrames rt = pre ++ f :: post →
  no_slot_frame (to_uintptr (GetProcAddress "__cxa_pure_virtual"))
    (to_uintptr (GetProcAddress "__cxa_deleted_virtual")) pre →
  (shortly_after (to_uintptr (GetProcAddress "__cxa_pure_virtual"))
     (to_uintptr f) →
   onTerminate REASON_PREFIX demangle Win32 rt None
   = slot_call REASON_PREFIX "PURE VIRTUAL FUNCTION CALL" (to_uintptr f))
  ∧ (¬ shortly_after (to_uintptr (GetProcAddress "__cxa_pure_virtual"))
         (to_uintptr f) →
     shortly_after (to_uintptr (GetProcAddress "__cxa_deleted_virtual"))
       (to_uintptr f) →
     onTerminate REASON_PREFIX demangle Win32 rt None
     = slot_call REASON_PREFIX "DELETED VIRTUAL FUNCTION CALL" (to_uintptr f)).
Proof.
  intros Hlib Hframes Hmiss. unfold onTerminate. rewrite Hlib, Hframes.
  destruct (scan_frames_hit
              (to_uintptr (GetProcAddress "__cxa_pure_virtual"))
              (to_uintptr (GetProcAddress "__cxa_deleted_virtual"))
              "PURE VIRTUAL FUNCTION CALL" "DELETED VIRTUAL FUNCTION CALL"
              pre f post (to_uintptr_range _) (to_uintptr_range _) Hmiss)
    as [Hp Hd].
  split.
  - intros H. by rewrite (Hp H).
  - intros H1 H2. by rewrite (Hd H1 H2).
Qed.

End TerminateExtras.

Lemma take_length_min (n : nat) (s : string) :
  String.length (CStr.take n s) = (n `min` String.length s)%nat.
Proof.
  revert s. induction n as [|n IH]; intros [|c s]; simpl; try done.
  by rewrite IH.
Qed.

(** X10: the detail [onTerminate] builds always fits its 128-byte buffer
    and is never empty; and however long the message is, the detail still
    begins with the label of the clause that caught the exception, so a cut
    detail still tells a [std::system_error] and a thrown C string apart. *)
Theorem onTerminate_detail_bounded (demangle : string → string) e :
  (1 ≤ String.length (onTerminate_detail demangle e) ≤ 127)%nat
  ∧ match e with
    | ThrownObject _ (Some _) =>
        CStr.prefixb ("std::system_error: " +:+ CStr.dquote)
          (onTerminate_detail demangle e) = true
    | ThrownCharPtr _ =>
        CStr.prefixb ("exception (const char*): " +:+ CStr.dquote)
          (onTerminate_detail demangle e) = true
    | _ => True
    end.
Proof.
  destruct e as [exc [err | ] | p | ].
  - split; [| reflexivity].
    change (onTerminate_detail demangle (ThrownObject exc (Some err)))
      with (CStr.take 127 (system_error_text err)).
    assert (1 ≤ String.length (system_error_text err))%nat as Htext
      by (unfold system_error_text; rewrite !CStrFacts.length_app;
          simpl; lia).
    rewrite take_length_min. lia.
  - split; [| done].
    change (onTerminate_detail demangle (ThrownObject exc None))
      with (CStr.take 127 (exception_text (demangle (type_name exc)) exc)).
    assert (1 ≤ String.length
                  (exception_text (demangle (type_name exc)) exc))%nat
      as Htext
      by (unfold exception_text; rewrite !CStrFacts.length_app; simpl; lia).
    rewrite take_length_min. lia.
  - split; [| reflexivity].
    change (onTerminate_detail demangle (ThrownCharPtr p))
      with (CStr.take 127
              (c_string_text
                 match p with Some s => s | None => "<null>" end)).
    assert (∀ s, 1 ≤ String.length (c_string_text s))%nat as Htext
      by (intros s; unfold c_string_text; rewrite !CStrFacts.length_app;
          simpl; lia).
    rewrite take_length_min.
    specialize (Htext match p with Some s => s | None => "<null>" end).
    lia.
  - split; [| done]. vm_compute. lia.
Qed.

(** ** More on the installation *)

Section SetupExtras.

Context (s_ALT_STACK_SIZE : Z).
Context (strerror : Z → string).

(** A component of the state that none of the four platform calls writes
    is left alone by the platform part of the installation. *)
Lemma platform_calls_keep {B} (f : process → B) pl k :
  (∀ ss p, f (sigaltstack k ss p).2 = f p) →
  (∀ sig act p, f (sigaction k sig act p).2 = f p) →
  (∀ h p, f (SetUnhandledExceptionFilter h p).2 = f p) →
  (∀ sig h p, f (signal sig h p).2 = f p) →
  (∀ h p, f (set_terminate h p).2 = f p) →
  preserves f (install_handlers s_ALT_STACK_SIZE strerror pl k).
Proof.
  intros Hss Hsa Hf Hs Ht.
  apply preserves_bind; [intros p; apply Ht |]. intros _.
  destruct pl.
  - apply preserves_bind; [intros p; apply Hss |].
    intros rc. apply preserves_bind.
    { destruct (negb (rc =? 0)); done. }
    intros _. apply preserves_for_each. intros sig.
    apply preserves_bind; [intros p; apply Hsa |].
    intros rc'. destruct (negb (rc' =? 0)); done.
  - apply preserves_bind; [intros p; apply Hf |]. intros _.
    intros p. apply Hs.
Qed.

Lemma appends_ret {A} (a : A) : appends_calls (mret a).
Proof. intros p. exists []. by rewrite app_nil_r. Qed.

Lemma appends_bind {A A'} (m : M A) (g : A → M A') :
  appends_calls m → (∀ a, appends_calls (g a)) → appends_calls (m ≫= g).
Proof.
  intros Hm Hg p. unfold mbind, M_bind.
  destruct (Hm p) as [more Hmore].
  destruct (m p) as [[a | c] p1]; simpl in *.
  - destruct (Hg a p1) as [more' Hmore'].
    exists (more ++ more'). by rewrite Hmore', Hmore, (assoc_L (++)).
  - by exists more.
Qed.

Lemma appends_for_each {C} (l : list C) body :
  (∀ x, appends_calls (body x)) → appends_calls (for_each l body).
Proof.
  intros Hb. induction l as [|x l IH]; simpl.
  - apply appends_ret.
  - apply appends_bind; [apply Hb | done].
Qed.

Lemma appends_err {A} name param : appends_calls (@err strerror A name param).
Proof. intros p. exists []. simpl. by rewrite app_nil_r. Qed.

Lemma appends_install_handlers pl k p :
  ∃ more,
    os_calls (install_handlers s_ALT_STACK_SIZE strerror pl k p).2
    = os_calls p ++ call_set_terminate fn_onTerminate :: more.
Proof.
  unfold install_handlers. unfold mbind at 1, M_bind at 1.
  unfold set_terminate at 1. cbv beta iota.
  match goal with
  | |- context [?rest ?q] =>
      match q with
      | Build_process _ _ _ _ _ _ _ _ =>
          assert (appends_calls rest) as Hrest; [| destruct (Hrest q) as [more ->]]
      end
  end.
  - destruct pl.
    + apply appends_bind.
      { intros q. unfold sigaltstack.
        destruct (sigaltstack_result k _); by eexists. }
      intros rc. apply appends_bind.
      { destruct (negb (rc =? 0)); [apply appends_err | apply appends_ret]. }
      intros _. apply appends_for_each. intros sig.
      apply appends_bind.
      { intros q. unfold sigaction.
        destruct (sigaction_result k _ _); by eexists. }
      intros rc'.
      destruct (negb (rc' =? 0)); [apply appends_err | apply appends_ret].
    + apply appends_bind; [intros q; by eexists |]. intros _.
      intros q. by eexists.
  - exists more. simpl. by rewrite <- (assoc_L (++)).
Qed.

(** The lambda [err] always ends in [abort]; whatever the error text, the
    reason fits its buffer and begins with the call and its parameter. *)
Lemma err_cut {A} name param p :
  (String.length name ≤ 20)%nat →
  ∃ c,
    @err strerror A name param p = (Terminated c, p)
    ∧ CStr.prefixb (name +:+ "(" +:+ CStr.fmt_d param +:+ ") failed: ")
        (reason c) = true
    ∧ (String.length (reason c) ≤ 255)%nat
    ∧ printTrace c = true ∧ inSignalHandler c = false ∧ faultAddr c = None.
Proof.
  intros Hn. unfold err, mbind, M_bind, get_errno, abort.
  eexists. split; [reflexivity |]. cbn [reason printTrace inSignalHandler
                                        faultAddr].
  split; [| split; [apply CStrFacts.take_length | done]].
  unfold CStr.snprintf.
  replace (name +:+ "(" +:+ CStr.fmt_d param +:+ ") failed: "
           +:+ strerror (errno p))
    with ((name +:+ "(" +:+ CStr.fmt_d param +:+ ") failed: ")
          +:+ strerror (errno p))
    by (by rewrite !CStrFacts.app_assoc).
  rewrite CStrFacts.take_app; [apply CStrFacts.prefixb_refl_app |].
  rewrite !CStrFacts.length_app.
  pose proof (CStrFacts.fmt_d_length param). simpl. lia.
Qed.

Lemma catch_fatal_signal_stops k sig e p :
  sigaction_result k sig installed_action = Some e →
  ∃ c,
    catch_fatal_signal strerror k sig p
    = (Terminated c, (sigaction k sig installed_action p).2)
    ∧ CStr.prefixb ("sigaction(" +:+ CStr.fmt_d sig +:+ ") failed: ")
        (reason c) = true
    ∧ errno (sigaction k sig installed_action p).2 = e
    ∧ dispositions (sigaction k sig installed_action p).2 = dispositions p.
Proof.
  intros Hs. unfold catch_fatal_signal, mbind, M_bind.
  fold installed_action. unfold sigaction. rewrite Hs.
  cbv beta iota. change (negb (-1 =? 0)) with true. cbv iota.
  assert (String.length "sigaction" ≤ 20)%nat as Hlen by (simpl; lia).
  match goal with
  | |- context [err strerror ?name sig ?q] =>
      destruct (@err_cut unit name sig q Hlen) as (c & Herr & Hc & _)
  end.
  exists c. by rewrite Herr.
Qed.

(** The loop over the signals, stopped by the first failing [sigaction]:
    the signals before it have their handler, the others are as before. *)
Lemma catch_fatal_signals_stop k pre sig post e p :
  Forall (λ s, sigaction_result k s installed_action = None) pre →
  sigaction_result k sig installed_action = Some e →
  ∃ c p',
    for_each (pre ++ sig :: post) (catch_fatal_signal strerror k) p
    = (Terminated c, p')
    ∧ CStr.prefixb ("sigaction(" +:+ CStr.fmt_d sig +:+ ") failed: ")
        (reason c) = true
    ∧ errno p' = e
    ∧ (∀ s, dispositions p' !! s
            = if decide (s ∈ pre) then Some (by_sigaction installed_action)
              else dispositions p !! s)
    ∧ alternate_stack p' = alternate_stack p
    ∧ terminate_handler p' = terminate_handler p
    ∧ s_handlersRegistered p' = s_handlersRegistered p.
Proof.
  intros Hpre Hsig. revert p.
  induction Hpre as [| s0 pre Hs Hpre IH]; intros p; cbn [app for_each].
  - unfold mbind, M_bind.
    destruct (catch_fatal_signal_stops k sig e p Hsig)
      as (c & -> & Hc & He & Hd).
    exists c, (sigaction k sig installed_action p).2.
    split; [done |]. split; [done |]. split; [done |].
    split; [| unfold sigaction; by rewrite Hsig].
    intros s. rewrite Hd. destruct (decide (s ∈ [])) as [Hin |]; [| done].
    by apply elem_of_nil in Hin.
  - unfold mbind, M_bind.
    destruct (catch_fatal_signal_ok strerror k s0 p Hs) as [-> _].
    destruct (IH (sigaction k s0 installed_action p).2)
      as (c & p' & -> & Hc & He & Hd & Ha & Ht & Hf).
    exists c, p'. split; [done |]. split; [done |]. split; [done |].
    unfold sigaction in Hd, Ha, Ht, Hf. rewrite Hs in Hd, Ha, Ht, Hf.
    simpl in Hd, Ha, Ht, Hf. split; [| done].
    intros s. rewrite Hd.
    destruct (decide (s ∈ pre)) as [Hin | Hnin];
      destruct (decide (s ∈ s0 :: pre)) as [Hin' | Hnin']; try done.
    + exfalso. apply Hnin'. apply elem_of_cons. by right.
    + apply elem_of_cons in Hin' as [-> | Hin']; [| done].
      by rewrite lookup_insert_eq.
    + rewrite lookup_insert_ne; [done |].
      intros <-. apply Hnin'. apply elem_of_cons. by left.
Qed.

Lemma posix_install_succeeds k p :
  sigaltstack_result k (installed_stack s_ALT_STACK_SIZE) = None →
  Forall (λ s, sigaction_result k s installed_action = None)
    [SIGABRT; SIGSEGV; SIGBUS; SIGILL; SIGFPE] →
  install_handlers s_ALT_STACK_SIZE strerror Posix k
    (set_s_handlersRegistered true p).2
  = (Returned (), installed s_ALT_STACK_SIZE Posix p).
Proof.
  intros Hss Hall.
  apply Forall_cons in Hall as [H1 Hall].
  apply Forall_cons in Hall as [H2 Hall].
  apply Forall_cons in Hall as [H3 Hall].
  apply Forall_cons in Hall as [H4 Hall].
  apply Forall_cons in Hall as [H5 _].
  unfold installed_stack, installed_action in *.
  unfold install_handlers, mbind, M_bind. simpl.
  unfold sigaltstack. rewrite Hss. simpl.
  unfold catch_fatal_signal, mbind, M_bind, sigaction.
  rewrite H1. simpl. rewrite H2. simpl. rewrite H3. simpl.
  rewrite H4. simpl. rewrite H5. simpl.
  unfold installed, installed_stack, installed_action. simpl.
  rewrite <- !(assoc_L (++)). reflexivity.
Qed.

Lemma posix_return_succeeded k p p' :
  install_handlers s_ALT_STACK_SIZE strerror Posix k p = (Returned (), p') →
  sigaltstack_result k (installed_stack s_ALT_STACK_SIZE) = None
  ∧ Forall (λ s, sigaction_result k s installed_action = None)
      [SIGABRT; SIGSEGV; SIGBUS; SIGILL; SIGFPE].
Proof.
  rewrite install_posix_steps. cbv zeta.
  destruct (sigaltstack_result k _); [done |].
  intros H. split; [done |]. by eapply catch_fatal_signals_return.
Qed.

(** X11: on Windows the construction never ends in [abort]: the results of
    [SetUnhandledExceptionFilter] and [signal] are not looked at (both are
    taken to succeed), and what [sigaltstack] or [sigaction] would answer
    plays no part.  A construction that passes its two guards returns after
    [set_terminate], [SetUnhandledExceptionFilter] and [signal], in that
    order.  Only the disposition of [SIGABRT], which is signal 22 in the
    Windows C run-time, changes (that of [SIGSEGV] is left to the exception
    filter) and no alternate stack is registered. *)
Theorem windows_setup_cannot_fail k p :
  environ p !! OOOPSI_DISABLE_HANDLERS ≠ Some "1" →
  s_handlersRegistered p = false →
  HandlerSetup s_ALT_STACK_SIZE strerror Win32 k p
  = (Returned (), installed s_ALT_STACK_SIZE Win32 p)
  ∧ os_calls (installed s_ALT_STACK_SIZE Win32 p)
    = os_calls p
      ++ [ call_set_terminate fn_onTerminate;
           call_SetUnhandledExceptionFilter fn_onWindowsException;
           call_signal 22 fn_onAbort ]
  ∧ (∀ sig, sig ≠ 22 →
       dispositions (installed s_ALT_STACK_SIZE Win32 p) !! sig
       = dispositions p !! sig)
  ∧ dispositions (installed s_ALT_STACK_SIZE Win32 p) !! 22
    = Some (by_signal fn_onAbort)
  ∧ alternate_stack (installed s_ALT_STACK_SIZE Win32 p) = alternate_stack p.
Proof.
  intros Hd Hr. split; [| split; [| split; [| split]]].
  - rewrite setup_enabled by done. rewrite Hr.
    unfold install_handlers, mbind, M_bind, signal, installed. simpl.
    rewrite <- !(assoc_L (++)). reflexivity.
  - reflexivity.
  - intros sig Hne. simpl. by rewrite lookup_insert_ne.
  - simpl. by rewrite lookup_insert_eq.
  - done.
Qed.

(** X12: the terminate hook goes in first.  Whenever a construction gets
    past its two guards, on either platform and whatever the operating
    system answers afterwards (even when the installation ends in [abort]),
    the registration flag is set, [onTerminate] is the terminate handler and
    [set_terminate] is the first installation call made. *)
Theorem terminate_hook_installed_first pl k p :
  environ p !! OOOPSI_DISABLE_HANDLERS ≠ Some "1" →
  s_handlersRegistered p = false →
  s_handlersRegistered (HandlerSetup s_ALT_STACK_SIZE strerror pl k p).2
  = true
  ∧ terminate_handler (HandlerSetup s_ALT_STACK_SIZE strerror pl k p).2
    = Some fn_onTerminate
  ∧ ∃ more,
      os_calls (HandlerSetup s_ALT_STACK_SIZE strerror pl k p).2
      = os_calls p ++ call_set_terminate fn_onTerminate :: more.
Proof.
  intros Hd Hr.
  split; [by apply setup_sets_flag |].
  rewrite setup_enabled by done. rewrite Hr. split.
  - unfold install_handlers. unfold mbind at 1, M_bind at 1.
    unfold set_terminate at 1. cbv beta iota.
    match goal with
    | |- terminate_handler (?rest ?q).2 = _ =>
        assert (preserves terminate_handler rest) as Hrest;
          [| by rewrite (Hrest q)]
    end.
    destruct pl.
    + apply preserves_bind.
      { intros q. unfold sigaltstack. by destruct (sigaltstack_result k _). }
      intros rc. apply preserves_bind.
      { destruct (negb (rc =? 0)); done. }
      intros _. apply preserves_for_each. intros sig.
      apply preserves_bind.
      { intros q. unfold sigaction. by destruct (sigaction_result k _ _). }
      intros rc'. destruct (negb (rc' =? 0)); done.
    + apply preserves_bind; [done |]. intros _. done.
  - destruct (appends_install_handlers pl k
                (set_s_handlersRegistered true p).2) as [more Hmore].
    exists more. by rewrite Hmore.
Qed.

(** X13: what no construction does, on either platform and whatever the
    operating system answers: it never changes the environment, never
    clears the registration flag, and never removes or reorders earlier
    installation calls (the history only grows). *)
Theorem construction_invariants pl k p :
  environ (HandlerSetup s_ALT_STACK_SIZE strerror pl k p).2 = environ p
  ∧ (s_handlersRegistered p = true →
     s_handlersRegistered (HandlerSetup s_ALT_STACK_SIZE strerror pl k p).2
     = true)
  ∧ ∃ more,
      os_calls (HandlerSetup s_ALT_STACK_SIZE strerror pl k p).2
      = os_calls p ++ more.
Proof.
  destruct (decide (environ p !! OOOPSI_DISABLE_HANDLERS = Some "1"))
    as [Hd | Hd].
  { rewrite setup_disabled by done. repeat split; [done |].
    exists []. by rewrite app_nil_r. }
  split; [by apply setup_sets_flag |].
  split; [intros _; by apply setup_sets_flag |].
  rewrite setup_enabled by done.
  destruct (s_handlersRegistered p).
  { exists []. by rewrite app_nil_r. }
  destruct (appends_install_handlers pl k (set_s_handlersRegistered true p).2)
    as [more ->].
  by eexists.
Qed.

(** X14: on POSIX a construction that gets past its guards and returns
    has installed everything: each of the five signals has [signalHandler]
    with [SA_ONSTACK | SA_SIGINFO], the alternate stack is registered with
    [s_ALT_STACK_SIZE], and the disposition of every other signal and the
    exception filter are as before. *)
Theorem posix_return_means_installed k p p' :
  environ p !! OOOPSI_DISABLE_HANDLERS ≠ Some "1" →
  s_handlersRegistered p = false →
  HandlerSetup s_ALT_STACK_SIZE strerror Posix k p = (Returned (), p') →
  p' = installed s_ALT_STACK_SIZE Posix p
  ∧ (∀ sig,
       dispositions p' !! sig
       = if decide (sig ∈ [SIGABRT; SIGSEGV; SIGBUS; SIGILL; SIGFPE])
         then Some (by_sigaction installed_action)
         else dispositions p !! sig)
  ∧ alternate_stack p' = Some (installed_stack s_ALT_STACK_SIZE)
  ∧ exception_filter p' = exception_filter p.
Proof.
  intros Hd Hr Hrun. rewrite setup_enabled in Hrun by done.
  rewrite Hr in Hrun.
  destruct (posix_return_succeeded _ _ _ Hrun) as [Hss Hall].
  rewrite (posix_install_succeeds k p Hss Hall) in Hrun.
  injection Hrun as <-. split; [done |]. split; [| done].
  intros sig. cbn [dispositions installed].
  destruct (decide (sig ∈ [SIGABRT; SIGSEGV; SIGBUS; SIGILL; SIGFPE]))
    as [Hin | Hnin].
  - rewrite !elem_of_cons in Hin.
    destruct Hin as [-> | [-> | [-> | [-> | [-> | Hin]]]]];
      [| | | | | by apply elem_of_nil in Hin];
      repeat (rewrite lookup_insert_ne
                by (unfold SIGABRT, SIGSEGV, SIGBUS, SIGILL, SIGFPE; lia));
      by rewrite lookup_insert_eq.
  - rewrite !not_elem_of_cons in Hnin. destruct_and!.
    by rewrite !lookup_insert_ne.
Qed.

(** X15: when [sigaltstack] fails, whatever text [strerror] returns, the
    constructor ends in [abort] with a reason of at most 255 characters
    that begins with [sigaltstack(<size>) failed: ]; no alternate stack is
    registered, no signal disposition is touched, and [errno] holds the
    error of the failed call. *)
Theorem sigaltstack_failure_state k p e :
  environ p !! OOOPSI_DISABLE_HANDLERS ≠ Some "1" →
  s_handlersRegistered p = false →
  sigaltstack_result k (installed_stack s_ALT_STACK_SIZE) = Some e →
  ∃ c p',
    HandlerSetup s_ALT_STACK_SIZE strerror Posix k p = (Terminated c, p')
    ∧ CStr.prefixb
        ("sigaltstack(" +:+ CStr.fmt_d (to_int s_ALT_STACK_SIZE)
         +:+ ") failed: ") (reason c) = true
    ∧ (String.length (reason c) ≤ 255)%nat
    ∧ alternate_stack p' = alternate_stack p
    ∧ dispositions p' = dispositions p
    ∧ errno p' = e.
Proof.
  intros Hd Hr Hss. rewrite setup_enabled by done. rewrite Hr.
  rewrite install_posix_steps. cbv zeta. rewrite Hss.
  assert (String.length "sigaltstack" ≤ 20)%nat as Hlen by (simpl; lia).
  match goal with
  | |- context [err strerror ?name ?param ?q] =>
      destruct (@err_cut unit name param q Hlen)
        as (c & Herr & Hc & Hl & _);
      exists c, q
  end.
  split; [done |]. split; [done |]. split; [done |].
  unfold sigaltstack. by rewrite Hss.
Qed.

(** X16: when the [sigaction] call for one of the five signals fails,
    whatever text [strerror] returns, the constructor ends in [abort] with
    a reason that begins with [sigaction(<signal>) failed: ]; the signals
    before it in the list keep the handler they have just been given, every
    other signal (the failing one and those after it included) has the
    disposition it had, the alternate stack stays registered and [errno]
    holds the error of the failed call. *)
Theorem sigaction_failure_state k p pre sig post e :
  environ p !! OOOPSI_DISABLE_HANDLERS ≠ Some "1" →
  s_handlersRegistered p = false →
  sigaltstack_result k (installed_stack s_ALT_STACK_SIZE) = None →
  [SIGABRT; SIGSEGV; SIGBUS; SIGILL; SIGFPE] = pre ++ sig :: post →
  Forall (λ s, sigaction_result k s installed_action = None) pre →
  sigaction_result k sig installed_action = Some e →
  ∃ c p',
    HandlerSetup s_ALT_STACK_SIZE strerror Posix k p = (Terminated c, p')
    ∧ CStr.prefixb ("sigaction(" +:+ CStr.fmt_d sig +:+ ") failed: ")
        (reason c) = true
    ∧ (∀ s, dispositions p' !! s
            = if decide (s ∈ pre) then Some (by_sigaction installed_action)
              else dispositions p !! s)
    ∧ alternate_stack p' = Some (installed_stack s_ALT_STACK_SIZE)
    ∧ terminate_handler p' = Some fn_onTerminate
    ∧ errno p' = e.
Proof.
  intros Hd Hr Hss Hl Hpre Hsig. rewrite setup_enabled by done. rewrite Hr.
  rewrite install_posix_steps. cbv zeta. rewrite Hss, Hl.
  match goal with
  | |- context [for_each _ _ ?q] =>
      destruct (catch_fatal_signals_stop k pre sig post e q Hpre Hsig)
        as (c & p' & -> & Hc & He & Hdisp & Ha & Ht & _);
      assert (dispositions q = dispositions p
              ∧ alternate_stack q = Some (installed_stack s_ALT_STACK_SIZE)
              ∧ terminate_handler q = Some fn_onTerminate) as (Hq1 & Hq2 & Hq3)
        by (unfold sigaltstack; by rewrite Hss)
  end.
  exists c, p'. split; [done |]. split; [done |].
  split; [| by rewrite Ha, Ht].
  intros s. by rewrite Hdisp, Hq1.
Qed.

(** *** The environment beyond the one variable *)

Lemma env_blind_ret {A} (a : A) : env_blind (mret a).
Proof. done. Qed.

Lemma env_blind_bind {A A'} (m : M A) (g : A → M A') :
  env_blind m → (∀ a, env_blind (g a)) → env_blind (m ≫= g).
Proof.
  intros Hm Hg env p. unfold mbind, M_bind. rewrite Hm.
  destruct (m p) as [[a | c] q]; simpl; [apply Hg | done].
Qed.

Lemma env_blind_for_each {C} (l : list C) body :
  (∀ x, env_blind (body x)) → env_blind (for_each l body).
Proof.
  intros Hb. induction l as [|x l IH]; simpl.
  - apply env_blind_ret.
  - apply env_blind_bind; [apply Hb | done].
Qed.

Lemma env_blind_install_handlers pl k :
  env_blind (install_handlers s_ALT_STACK_SIZE strerror pl k).
Proof.
  apply env_blind_bind; [done |]. intros _.
  destruct pl.
  - apply env_blind_bind.
    { intros env p. unfold sigaltstack.
      by destruct (sigaltstack_result k _). }
    intros rc. apply env_blind_bind.
    { destruct (negb (rc =? 0)); done. }
    intros _. apply env_blind_for_each. intros sig.
    apply env_blind_bind.
    { intros env p. unfold sigaction. by destruct (sigaction_result k _ _). }
    intros rc'. destruct (negb (rc' =? 0)); done.
  - apply env_blind_bind; [done |]. intros _. done.
Qed.

(** X17: of the environment the constructor looks at one thing only,
    whether [OOOPSI_DISABLE_HANDLERS] is exactly "1".  In two environments
    that agree on that, it makes the same calls with the same outcome and
    leaves the same state (each with its own environment): any other value
    of the variable counts as unset, and no other variable matters. *)
Theorem only_the_disable_variable_matters pl k p env' :
  (env' !! OOOPSI_DISABLE_HANDLERS = Some "1"
   ↔ environ p !! OOOPSI_DISABLE_HANDLERS = Some "1") →
  HandlerSetup s_ALT_STACK_SIZE strerror pl k (with_environ env' p)
  = ((HandlerSetup s_ALT_STACK_SIZE strerror pl k p).1,
     with_environ env' (HandlerSetup s_ALT_STACK_SIZE strerror pl k p).2).
Proof.
  intros Hagree.
  destruct (decide (environ p !! OOOPSI_DISABLE_HANDLERS = Some "1"))
    as [Hd | Hd].
  - rewrite (setup_disabled _ _ pl k p Hd).
    apply setup_disabled. simpl. by apply Hagree.
  - rewrite (setup_enabled _ _ pl k p Hd).
    rewrite setup_enabled by (simpl; by rewrite Hagree).
    cbn [s_handlersRegistered with_environ].
    destruct (s_handlersRegistered p); [done |].
    change (set_s_handlersRegistered true (with_environ env' p)).2
      with (with_environ env' (set_s_handlersRegistered true p).2).
    apply env_blind_install_handlers.
Qed.

End SetupExtras.

(** ** Stack traces and the alternate stack *)

Section StackTraceFacts.

Context (REASON_PREFIX : string).
Context (s_ALT_STACK_SIZE : Z).
Context (strerror : Z → string).

(** C1 (as the code has it): the POSIX signal handler asks for a stack
    trace for every fault, those classified as stack overflow included.
    Whenever the POSIX construction gets past its guards and returns,
    [sigaltstack] has registered [s_ALT_STACK] with [s_ALT_STACK_SIZE]
    bytes, and each of the five signals is handled by [signalHandler] with
    [SA_ONSTACK], the flag that asks for delivery on the alternate stack,
    among its flags.  The structured-exception filter asks for no stack
    trace exactly when the exception code is [EXCEPTION_STACK_OVERFLOW],
    and in that branch passes the fixed reason
    "SEGMENTATION FAULT (stack overflow)" without a fault address. *)
Theorem stack_trace_requests :
  (∀ sig info context,
     printTrace (signalHandler REASON_PREFIX sig info context) = true)
  ∧ (∀ k p p',
       environ p !! OOOPSI_DISABLE_HANDLERS ≠ Some "1" →
       s_handlersRegistered p = false →
       HandlerSetup s_ALT_STACK_SIZE strerror Posix k p = (Returned (), p') →
       alternate_stack p'
       = Some {| ss_sp := s_ALT_STACK; ss_flags := 0;
                 ss_size := s_ALT_STACK_SIZE |}
       ∧ ∀ sig,
           sig ∈ [SIGABRT; SIGSEGV; SIGBUS; SIGILL; SIGFPE] →
           ∃ act,
             dispositions p' !! sig = Some (by_sigaction act)
             ∧ sa_sigaction act = fn_signalHandler
             ∧ Z.land (sa_flags act) SA_ONSTACK = SA_ONSTACK)
  ∧ (∀ excRec,
       printTrace (onWindowsException REASON_PREFIX excRec) = false
       ↔ ExceptionCode excRec = EXCEPTION_STACK_OVERFLOW)
  ∧ (∀ excRec,
       ExceptionCode excRec = EXCEPTION_STACK_OVERFLOW →
       onWindowsException REASON_PREFIX excRec =
         {| reason := REASON_PREFIX +:+ "SEGMENTATION FAULT (stack overflow)";
            printTrace := false; inSignalHandler := true;
            faultAddr := None |}).
Proof.
  split; [done |]. split; [| split].
  - intros k p p' Hd Hr Hrun. rewrite setup_enabled in Hrun by done.
    rewrite Hr in Hrun.
    destruct (posix_return_succeeded _ _ _ _ _ Hrun) as [Hss Hall].
    rewrite (posix_install_succeeds _ _ k p Hss Hall) in Hrun.
    injection Hrun as <-. split; [done |].
    intros sig Hin. exists installed_action.
    split; [| split; reflexivity].
    cbn [dispositions installed].
    rewrite !elem_of_cons in Hin.
    destruct Hin as [-> | [-> | [-> | [-> | [-> | Hin]]]]];
      [| | | | | by apply elem_of_nil in Hin];
      repeat (rewrite lookup_insert_ne
                by (unfold SIGABRT, SIGSEGV, SIGBUS, SIGILL, SIGFPE; lia));
      by rewrite lookup_insert_eq.
  - intros excRec. unfold onWindowsException.
    destruct (Z.eqb_spec (ExceptionCode excRec) EXCEPTION_STACK_OVERFLOW);
      simpl; split; intros; congruence.
  - intros excRec H. unfold onWindowsException. by rewrite H.
Qed.

End StackTraceFacts.

(** ** The further properties at work on the sample environment *)

Lemma fault_address_reported_witness :
  (SIGBUS = SIGSEGV ∨ SIGBUS = SIGBUS ∨ SIGBUS = SIGILL ∨ SIGBUS = SIGFPE)
  ∧ addr (signalHandler_locals SIGBUS intdiv_info None)
    = Some (to_uintptr (si_addr intdiv_info)).
Proof.
  assert (SIGBUS = SIGSEGV ∨ SIGBUS = SIGBUS ∨ SIGBUS = SIGILL
          ∨ SIGBUS = SIGFPE) as H by (right; left; reflexivity).
  exact (conj H (proj1 (fault_address_reported SIGBUS intdiv_info None) H)).
Defined.

Lemma context_only_for_maperr_witness :
  si_code overflow_info = SEGV_MAPERR
  ∧ detail (signalHandler_locals SIGSEGV overflow_info None)
    = Some "address not mapped to object".
Proof.
  exact (conj eq_refl
           (proj1 (context_only_for_maperr SIGSEGV overflow_info None None)
              eq_refl)).
Defined.

Lemma unrecognised_exception_code_witness :
  ((ExceptionCode (windows_record 5) ∉ recognised_exception_codes)
   ∧ (0 ≤ ExceptionCode (windows_record 5) < 2 ^ 32))
  ∧ detail (onWindowsException_locals (windows_record 5))
    = Some "exception code = 5".
Proof.
  assert (ExceptionCode (windows_record 5) ∉ recognised_exception_codes)
    as Hcode by (apply (bool_decide_unpack _); vm_compute; exact I).
  assert (0 ≤ ExceptionCode (windows_record 5) < 2 ^ 32) as Hrange
    by (simpl; lia).
  split; [exact (conj Hcode Hrange) |].
  exact (f_equal detail
           (proj1 (unrecognised_exception_code sample_prefix
                     (windows_record 5) Hcode Hrange))).
Defined.

Lemma terminate_falls_back_witness :
  libstdcpp no_runtime = None
  ∧ onTerminate sample_prefix sample_demangle Win32 no_runtime None
    = terminate_fallback sample_prefix.
Proof.
  exact (conj eq_refl
           (proj1 (proj2 (terminate_falls_back sample_prefix sample_demangle
                            no_runtime)) eq_refl)).
Defined.

Lemma terminate_scan_first_match_witness :
  (libstdcpp pure_call_runtime = Some sample_GetProcAddress
   ∧ stackFrames pure_call_runtime = [4198400] ++ 1879048210 :: [4202496]
   ∧ no_slot_frame (to_uintptr (sample_GetProcAddress "__cxa_pure_virtual"))
       (to_uintptr (sample_GetProcAddress "__cxa_deleted_virtual"))
       [4198400]
   ∧ shortly_after (to_uintptr (sample_GetProcAddress "__cxa_pure_virtual"))
       (to_uintptr 1879048210))
  ∧ onTerminate sample_prefix sample_demangle Win32 pure_call_runtime None
    = slot_call sample_prefix "PURE VIRTUAL FUNCTION CALL"
        (to_uintptr 1879048210).
Proof.
  assert (no_slot_frame
            (to_uintptr (sample_GetProcAddress "__cxa_pure_virtual"))
            (to_uintptr (sample_GetProcAddress "__cxa_deleted_virtual"))
            [4198400]) as Hmiss.
  { constructor; [| constructor].
    unfold shortly_after. vm_compute. split; intros [H1 H2]; by apply H1. }
  assert (shortly_after
            (to_uintptr (sample_GetProcAddress "__cxa_pure_virtual"))
            (to_uintptr 1879048210)) as Hhit.
  { unfold shortly_after. vm_compute. split; discriminate. }
  split; [exact (conj eq_refl (conj eq_refl (conj Hmiss Hhit))) |].
  exact (proj1 (terminate_scan_first_match sample_prefix sample_demangle
                  pure_call_runtime sample_GetProcAddress
                  [4198400] 1879048210 [4202496] eq_refl eq_refl Hmiss)
           Hhit).
Defined.

Lemma fresh_process_enabled :
  environ (fresh_process ∅) !! OOOPSI_DISABLE_HANDLERS ≠ Some "1".
Proof. vm_compute. discriminate. Defined.

Lemma stack_trace_requests_witness :
  (ExceptionCode (windows_record EXCEPTION_STACK_OVERFLOW)
   = EXCEPTION_STACK_OVERFLOW
   ∧ onWindowsException sample_prefix
       (windows_record EXCEPTION_STACK_OVERFLOW) =
       {| reason :=
            "!!! TERMINATING DUE TO SEGMENTATION FAULT (stack overflow)";
          printTrace := false; inSignalHandler := true; faultAddr := None |})
  ∧ (environ (fresh_process ∅) !! OOOPSI_DISABLE_HANDLERS ≠ Some "1"
     ∧ s_handlersRegistered (fresh_process ∅) = false
     ∧ HandlerSetup 65536 sample_strerror Posix kernel_ok (fresh_process ∅)
       = (Returned (), installed 65536 Posix (fresh_process ∅))
     ∧ SIGSEGV ∈ [SIGABRT; SIGSEGV; SIGBUS; SIGILL; SIGFPE])
  ∧ alternate_stack (installed 65536 Posix (fresh_process ∅))
    = Some {| ss_sp := s_ALT_STACK; ss_flags := 0; ss_size := 65536 |}
  ∧ ∃ act,
      dispositions (installed 65536 Posix (fresh_process ∅)) !! SIGSEGV
      = Some (by_sigaction act)
      ∧ sa_sigaction act = fn_signalHandler
      ∧ Z.land (sa_flags act) SA_ONSTACK = SA_ONSTACK.
Proof.
  assert (HandlerSetup 65536 sample_strerror Posix kernel_ok (fresh_process ∅)
          = (Returned (), installed 65536 Posix (fresh_process ∅))) as Hrun
    by (apply setup_installs;
        [exact fresh_process_enabled | reflexivity
        | exact kernel_ok_accepts_all]).
  assert (SIGSEGV ∈ [SIGABRT; SIGSEGV; SIGBUS; SIGILL; SIGFPE]) as Hin
    by (apply elem_of_cons; right; apply elem_of_cons; by left).
  pose proof (stack_trace_requests sample_prefix 65536 sample_strerror)
    as (_ & Hposix & _ & Hwin).
  split.
  { split; [reflexivity |].
    exact (Hwin (windows_record EXCEPTION_STACK_OVERFLOW) eq_refl). }
  split.
  { exact (conj fresh_process_enabled (conj eq_refl (conj Hrun Hin))). }
  destruct (Hposix kernel_ok (fresh_process ∅) _ fresh_process_enabled
              eq_refl Hrun) as [Hstack Hsigs].
  split; [exact Hstack |]. exact (Hsigs SIGSEGV Hin).
Defined.

Lemma windows_setup_cannot_fail_witness :
  (environ (fresh_process ∅) !! OOOPSI_DISABLE_HANDLERS ≠ Some "1"
   ∧ s_handlersRegistered (fresh_process ∅) = false)
  ∧ HandlerSetup 65536 sample_strerror Win32 kernel_rejecting_sigaltstack
      (fresh_process ∅)
    = (Returned (), installed 65536 Win32 (fresh_process ∅))
  ∧ dispositions (installed 65536 Win32 (fresh_process ∅)) !! 22
    = Some (by_signal fn_onAbort)
  ∧ dispositions (installed 65536 Win32 (fresh_process ∅)) !! 6 = None.
Proof.
  split; [exact (conj fresh_process_enabled eq_refl) |].
  pose proof (windows_setup_cannot_fail 65536 sample_strerror
                kernel_rejecting_sigaltstack (fresh_process ∅)
                fresh_process_enabled eq_refl)
    as (Hrun & _ & Hother & Habrt & _).
  split; [exact Hrun |]. split; [exact Habrt |].
  rewrite (Hother 6) by discriminate. reflexivity.
Defined.

Lemma terminate_hook_installed_first_witness :
  (environ (fresh_process ∅) !! OOOPSI_DISABLE_HANDLERS ≠ Some "1"
   ∧ s_handlersRegistered (fresh_process ∅) = false)
  ∧ terminate_handler
      (HandlerSetup 65536 sample_strerror Posix kernel_rejecting_sigaltstack
         (fresh_process ∅)).2
    = Some fn_onTerminate.
Proof.
  split; [exact (conj fresh_process_enabled eq_refl) |].
  exact (proj1 (proj2 (terminate_hook_installed_first 65536 sample_strerror
                         Posix kernel_rejecting_sigaltstack (fresh_process ∅)
                         fresh_process_enabled eq_refl))).
Defined.

Lemma posix_return_means_installed_witness :
  (environ (fresh_process ∅) !! OOOPSI_DISABLE_HANDLERS ≠ Some "1"
   ∧ s_handlersRegistered (fresh_process ∅) = false
   ∧ HandlerSetup 65536 sample_strerror Posix kernel_ok (fresh_process ∅)
     = (Returned (), installed 65536 Posix (fresh_process ∅)))
  ∧ alternate_stack (installed 65536 Posix (fresh_process ∅))
    = Some (installed_stack 65536).
Proof.
  assert (HandlerSetup 65536 sample_strerror Posix kernel_ok (fresh_process ∅)
          = (Returned (), installed 65536 Posix (fresh_process ∅))) as Hrun
    by (apply setup_installs;
        [exact fresh_process_enabled | reflexivity
        | exact kernel_ok_accepts_all]).
  split; [exact (conj fresh_process_enabled (conj eq_refl Hrun)) |].
  exact (proj1 (proj2 (proj2 (posix_return_means_installed 65536
                                sample_strerror kernel_ok (fresh_process ∅)
                                _ fresh_process_enabled eq_refl Hrun)))).
Defined.

Lemma sigaltstack_failure_state_witness :
  (environ (fresh_process ∅) !! OOOPSI_DISABLE_HANDLERS ≠ Some "1"
   ∧ s_handlersRegistered (fresh_process ∅) = false
   ∧ sigaltstack_result kernel_rejecting_sigaltstack (installed_stack 65536)
     = Some 12)
  ∧ ∃ c p',
      HandlerSetup 65536 sample_strerror Posix kernel_rejecting_sigaltstack
        (fresh_process ∅) = (Terminated c, p')
      ∧ CStr.prefixb
          ("sigaltstack(" +:+ CStr.fmt_d (to_int 65536) +:+ ") failed: ")
          (reason c) = true
      ∧ (String.length (reason c) ≤ 255)%nat
      ∧ alternate_stack p' = alternate_stack (fresh_process ∅)
      ∧ dispositions p' = dispositions (fresh_process ∅)
      ∧ errno p' = 12.
Proof.
  split; [exact (conj fresh_process_enabled (conj eq_refl eq_refl)) |].
  exact (sigaltstack_failure_state 65536 sample_strerror
           kernel_rejecting_sigaltstack (fresh_process ∅) 12
           fresh_process_enabled eq_refl eq_refl).
Defined.

Lemma sigaction_failure_state_witness :
  (environ (fresh_process ∅) !! OOOPSI_DISABLE_HANDLERS ≠ Some "1"
   ∧ s_handlersRegistered (fresh_process ∅) = false
   ∧ sigaltstack_result kernel_rejecting_SIGBUS (installed_stack 65536) = None
   ∧ [SIGABRT; SIGSEGV; SIGBUS; SIGILL; SIGFPE]
     = [SIGABRT; SIGSEGV] ++ SIGBUS :: [SIGILL; SIGFPE]
   ∧ Forall
       (λ s, sigaction_result kernel_rejecting_SIGBUS s installed_action = None)
       [SIGABRT; SIGSEGV]
   ∧ sigaction_result kernel_rejecting_SIGBUS SIGBUS installed_action = Some 22)
  ∧ ∃ c p',
      HandlerSetup 65536 sample_strerror Posix kernel_rejecting_SIGBUS
        (fresh_process ∅) = (Terminated c, p')
      ∧ CStr.prefixb ("sigaction(" +:+ CStr.fmt_d SIGBUS +:+ ") failed: ")
          (reason c) = true
      ∧ (∀ s, dispositions p' !! s
              = if decide (s ∈ [SIGABRT; SIGSEGV])
                then Some (by_sigaction installed_action)
                else dispositions (fresh_process ∅) !! s)
      ∧ alternate_stack p' = Some (installed_stack 65536)
      ∧ terminate_handler p' = Some fn_onTerminate
      ∧ errno p' = 22.
Proof.
  assert (Forall
            (λ s, sigaction_result kernel_rejecting_SIGBUS s installed_action
                  = None) [SIGABRT; SIGSEGV]) as Hpre
    by (repeat constructor).
  split.
  { exact (conj fresh_process_enabled
             (conj eq_refl (conj eq_refl (conj eq_refl
                (conj Hpre eq_refl))))). }
  exact (sigaction_failure_state 65536 sample_strerror
           kernel_rejecting_SIGBUS (fresh_process ∅)
           [SIGABRT; SIGSEGV] SIGBUS [SIGILL; SIGFPE] 22
           fresh_process_enabled eq_refl eq_refl eq_refl Hpre eq_refl).
Defined.

Lemma only_the_disable_variable_matters_witness :
  (other_value_environ !! OOOPSI_DISABLE_HANDLERS = Some "1"
   ↔ environ (fresh_process ∅) !! OOOPSI_DISABLE_HANDLERS = Some "1")
  ∧ HandlerSetup 65536 sample_strerror Posix kernel_ok
      (with_environ other_value_environ (fresh_process ∅))
    = ((HandlerSetup 65536 sample_strerror Posix kernel_ok
          (fresh_process ∅)).1,
       with_environ other_value_environ
         (HandlerSetup 65536 sample_strerror Posix kernel_ok
            (fresh_process ∅)).2).
Proof.
  assert (other_value_environ !! OOOPSI_DISABLE_HANDLERS = Some "1"
          ↔ environ (fresh_process ∅) !! OOOPSI_DISABLE_HANDLERS = Some "1")
    as Hagree.
  { split; intros H; vm_compute in H; discriminate H. }
  exact (conj Hagree
           (only_the_disable_variable_matters 65536 sample_strerror Posix
              kernel_ok (fresh_process ∅) other_value_environ Hagree)).
Defined.

(** X18: the initial category "???" of the structured-exception filter
    never reaches a report: for every exception code that goes through
    [formatReason] (every code but [EXCEPTION_STACK_OVERFLOW], which passes a
    fixed reason), the [switch] has replaced it by a real, non-empty
    category. *)
Theorem placeholder_never_reported excRec :
  ExceptionCode excRec ≠ EXCEPTION_STACK_OVERFLOW →
  what (onWindowsException_locals excRec) ≠ "???"
  ∧ what (onWindowsException_locals excRec) ≠ EmptyString.
Proof.
  intros Hne. unfold onWindowsException_locals, switch.
  repeat case_match; eqb_to_prop; done.
Qed.

Lemma placeholder_never_reported_witness :
  ExceptionCode (windows_record 5) ≠ EXCEPTION_STACK_OVERFLOW
  ∧ what (onWindowsException_locals (windows_record 5)) ≠ "???".
Proof.
  assert (ExceptionCode (windows_record 5) ≠ EXCEPTION_STACK_OVERFLOW) as H
    by discriminate.
  exact (conj H (proj1 (placeholder_never_reported (windows_record 5) H))).
Defined.
